(** * Green agentic RAG: the orchestration engine, its model runners and its
    cost model

    A shallow embedding of
    - [src/backend/src/agents/models.py]   (module [Models]),
    - [src/backend/src/core/scheduler.py]  (module [Scheduler]),
    - [src/backend/src/core/orchestrator.py] (module [Orchestrator]),
    - [src/backend/src/agents/triage.py]   (module [Triage]),
    - the upload path of [src/backend/src/api/main.py] (module [Upload]),
    followed by the properties of the design document that concern them.

    Conventions of the embedding.
    - A Python [str] is a [string]; [len] is [String.length].
    - A Python [dict] with string keys is a [gmap string _]; a missing key
      read with [d[k]] raises [KeyError], which is written out.
    - A call that may raise returns an [outcome]: [Returned v] or
      [Raised msg], where [msg] is [str(e)] of the exception.
    - External capabilities (the Hugging Face pipeline, the Ollama and Groq
      clients, the NLI tokenizer and classifier) are values stored in the
      registry; they are arbitrary functions that may raise.
    - Python floats of the cost model and of the progress field are
      modelled by exact rationals [Q]. *)

From Stdlib Require Import Ascii String QArith Qfield Lia Lqa.
From stdpp Require Import gmap strings list pretty.

Local Open Scope string_scope.

(** ** Exceptions *)

Inductive outcome (A : Type) : Type :=
| Returned (v : A)
| Raised (msg : string).
Arguments Returned {A} v.
Arguments Raised {A} msg.


(** [x in s] on Python strings. *)
Definition contains (needle hay : string) : bool :=
  match String.index 0 needle hay with Some _ => true | None => false end.

(** [d[k]] on a dict: the value, or [KeyError(k)], whose [str] is the key
    between single quotes. *)
Definition getitem {V} (d : gmap string V) (k : string) : outcome V :=
  match d !! k with
  | Some v => Returned v
  | None => Raised ("'" ++ k ++ "'")
  end.

(** [l[0]] on a list: the head, or [IndexError]. *)
Definition getitem0 {V} (l : list V) : outcome V :=
  match l with
  | x :: _ => Returned x
  | [] => Raised "list index out of range"
  end.

(** ** agents/models.py *)

Module Models.

(** The objects stored in [models_registry]. *)
Inductive model_obj : Type :=
| Pipeline (pipe : string -> nat -> nat -> outcome (list (gmap string string)))
    (* pipe(text, max_length, min_length) -> [{'summary_text': ...}] *)
| OllamaClient (chat : string -> outcome (gmap string (gmap string string)))
    (* client.chat(prompt) -> {'message': {'content': ...}} *)
| GroqClient (create : nat -> string -> outcome string)
    (* the [attempt]-th completions.create(prompt), read at
       .choices[0].message.content *)
| Tokenizer (tok : string -> outcome string)
| Classifier (argmax : string -> outcome nat).
    (* the index of the largest logit of the classifier's output *)

(** [models_registry]: a dict whose values may be Python's [None]. *)
Abbreviation registry := (gmap string (option model_obj)).

(** [models_registry.get(k)]: [None] when the key is missing. *)
Definition get (reg : registry) (k : string) : option model_obj :=
  match reg !! k with
  | Some v => v
  | None => None
  end.

(** [state["model_usage_chars"]]. *)
Abbreviation usage := (gmap string nat).

(** [state["model_usage_chars"][tier] += n]: reads, then writes. *)
Definition add_usage (tier : string) (n : nat) (u : usage) : outcome usage :=
  match getitem u tier with
  | Returned old => Returned (<[tier := old + n]> u)
  | Raised e => Raised e
  end.

(** The white space on which [str.split()] splits, among the code points
    below 256. *)
Definition is_space (a : ascii) : bool :=
  match nat_of_ascii a with
  | 9 | 10 | 11 | 12 | 13 | 28 | 29 | 30 | 31 | 32 | 133 | 160 => true
  | _ => false
  end.

(** [len(text.split())]: the number of maximal runs of non-space
    characters. [inword] tells whether the previous character was one. *)
Fixpoint count_words (inword : bool) (s : string) : nat :=
  match s with
  | EmptyString => 0
  | String a s' =>
      if is_space a then count_words false s'
      else if inword then count_words true s'
      else S (count_words true s')
  end.

Definition max_chunk_length : nat := 1024.

(** [text[:1024]] when the text is longer. *)
Definition truncate (text : string) : string :=
  if Nat.ltb max_chunk_length (String.length text)
  then String.substring 0 max_chunk_length text
  else text.

Definition calculated_min (text : string) : nat :=
  Nat.min 30 (Nat.max 5 (count_words false text / 2)).

Definition light_not_loaded : string := "Error: Light summarizer not loaded.".
Definition medium_not_loaded : string := "Error: Medium summarizer not loaded.".
Definition generation_failed : string := "Summary generation failed.".

(** The body of the [try] of [run_light_summarizer], with the usage
    counters as they are when the body ends (normally or not). *)
Definition light_body (obj : model_obj) (text : string) (u : usage)
  : outcome string * usage :=
  let text := truncate text in
  match obj with
  | Pipeline pipe =>
      match pipe text 150 (calculated_min text) with
      | Raised e => (Raised e, u)
      | Returned result =>
          match add_usage "light" (String.length text) u with
          | Raised e => (Raised e, u)
          | Returned u' =>
              match getitem0 result with
              | Raised e => (Raised e, u')
              | Returned d => (getitem d "summary_text", u')
              end
          end
      end
  | _ => (Raised "object is not callable", u)
  end.

(** [run_light_summarizer(text, state)]. *)
Definition run_light_summarizer (reg : registry) (text : string) (u : usage)
  : outcome string * usage :=
  match get reg "summarizer_light" with
  | None => (Returned light_not_loaded, u)
  | Some pipe =>
      match light_body pipe text u with
      | (Returned s, u') => (Returned s, u')
      | (Raised _, u') => (Returned generation_failed, u')
      end
  end.

Definition medium_prompt (text : string) : string :=
  "
    You are an expert summarization model. 
    Provide a concise, factual summary of the following text.
    Do not add any preamble, introduction, or conversational fluff.
    
    TEXT:
    " ++ text ++ "
    
    SUMMARY:
    ".

Definition medium_body (obj : model_obj) (text : string) (u : usage)
  : outcome string * usage :=
  match obj with
  | OllamaClient chat =>
      match chat (medium_prompt text) with
      | Raised e => (Raised e, u)
      | Returned response =>
          match add_usage "medium" (String.length text) u with
          | Raised e => (Raised e, u)
          | Returned u' =>
              match getitem response "message" with
              | Raised e => (Raised e, u')
              | Returned m => (getitem m "content", u')
              end
          end
      end
  | _ => (Raised "object has no attribute 'chat'", u)
  end.

(** [run_medium_summarizer(text, state)]. *)
Definition run_medium_summarizer (reg : registry) (text : string) (u : usage)
  : outcome string * usage :=
  match get reg "ollama_client" with
  | None => (Returned medium_not_loaded, u)
  | Some client =>
      match medium_body client text u with
      | (Returned s, u') => (Returned s, u')
      | (Raised _, u') => (Returned generation_failed, u')
      end
  end.

Definition large_prompt (text_of_summaries : string) : string :=
  "
    You are an expert editor. You will be given a large collection of
    small, disconnected summaries from a document.
    Your job is to synthesize these summaries into a single,
    coherent, well-written executive summary.
    
    CRITICAL INSTRUCTIONS:
    - STRICTLY use ONLY the information present in the summaries below
    - DO NOT add any external information, examples, or unrelated content
    - DO NOT invent, assume, or extrapolate beyond what is explicitly stated
    - Synthesize the provided summaries into a cohesive narrative
    - Be concise, accurate, and factual
    - If the summaries are about a specific topic, stay focused on that topic only
    
    SUMMARIES:
    " ++ text_of_summaries ++ "
    
    EXECUTIVE SUMMARY:
    ".

Definition max_retries : nat := 3.

(** One pass of the [try] inside the retry loop. *)
Definition large_attempt (obj : model_obj) (attempt : nat)
    (text_of_summaries : string) (u : usage) : outcome string * usage :=
  match obj with
  | GroqClient create =>
      match create attempt (large_prompt text_of_summaries) with
      | Raised e => (Raised e, u)
      | Returned response_text =>
          match add_usage "large" (String.length text_of_summaries) u with
          | Raised e => (Raised e, u)
          | Returned u' => (Returned response_text, u')
          end
      end
  | _ => (Raised "object has no attribute 'chat'", u)
  end.

(** [for attempt in range(max_retries)], with [todo] iterations left;
    [time.sleep(5)] has no effect on the state. *)
Fixpoint large_loop (obj : model_obj) (todo attempt : nat)
    (text_of_summaries : string) (u : usage) : outcome string * usage :=
  match todo with
  | 0 => (Returned "Summary failed due to Rate Limits.", u)
  | S todo' =>
      match large_attempt obj attempt text_of_summaries u with
      | (Returned s, u') => (Returned s, u')
      | (Raised e, u') =>
          if contains "429" e
          then large_loop obj todo' (S attempt) text_of_summaries u'
          else (Returned ("Final summary generation failed: " ++ e), u')
      end
  end.

(** [run_large_model_compile(text_of_summaries, state)]. *)
Definition run_large_model_compile (reg : registry)
    (text_of_summaries : string) (u : usage) : outcome string * usage :=
  match get reg "summarizer_large" with
  | None => run_medium_summarizer reg text_of_summaries u
  | Some client => large_loop client max_retries 0 text_of_summaries u
  end.

(** The body of the [try] of [run_accuracy_check]. *)
Definition accuracy_body (tokenizer model : model_obj)
    (original_text summary : string) : outcome bool :=
  let input_text := "[PREMISE] " ++ original_text ++ " [HYPOTHESIS] " ++ summary in
  match tokenizer with
  | Tokenizer tok =>
      match tok input_text with
      | Raised e => Raised e
      | Returned tokenized_input =>
          match model with
          | Classifier argmax =>
              match argmax tokenized_input with
              | Raised e => Raised e
              | Returned prediction => Returned (Nat.eqb prediction 2)
              end
          | _ => Raised "object is not callable"
          end
      end
  | _ => Raised "object is not callable"
  end.

(** [run_accuracy_check(original_text, summary)]. *)
Definition run_accuracy_check (reg : registry) (original_text summary : string)
  : outcome bool :=
  match get reg "checker_tokenizer", get reg "checker_model" with
  | Some tokenizer, Some model =>
      match accuracy_body tokenizer model original_text summary with
      | Returned b => Returned b
      | Raised _ => Returned true
      end
  | _, _ => Returned true
  end.

(** [load_checker_model()], given what the two [from_pretrained] calls do. *)
Definition load_checker_model (load_tokenizer load_model : outcome model_obj)
    (reg : registry) : registry :=
  match reg !! "checker_model" with
  | Some _ => reg
  | None =>
      match load_tokenizer with
      | Raised _ =>
          <["checker_tokenizer" := None]> (<["checker_model" := None]> reg)
      | Returned t =>
          let reg1 := <["checker_tokenizer" := Some t]> reg in
          match load_model with
          | Raised _ =>
              <["checker_tokenizer" := None]> (<["checker_model" := None]> reg1)
          | Returned m => <["checker_model" := Some m]> reg1
          end
      end
  end.

(** The verifier is down for a pair when its tokenizer or its model is
    missing from the registry, or when evaluating the pair raises. *)
Definition verifier_down (reg : registry) (original_text summary : string) : Prop :=
  get reg "checker_tokenizer" = None
  \/ get reg "checker_model" = None
  \/ exists tokenizer model e,
       get reg "checker_tokenizer" = Some tokenizer
       /\ get reg "checker_model" = Some model
       /\ accuracy_body tokenizer model original_text summary = Raised e.

End Models.

(** ** core/scheduler.py *)

Module Scheduler.

(** An [int] used in float arithmetic. *)
Definition Q_of_nat (n : nat) : Q := inject_Z (Z.of_nat n).

(** The estimated gCO2e per chunk of each operation. *)
Definition CARBON_COSTS_PER_CHUNK_GCO2E : gmap string Q :=
  list_to_map
    [ ("triage_hi_res", 0.05%Q);
      ("triage_fast", 0.01%Q);
      ("summarize_light", 0.005%Q);
      ("summarize_medium", 0.05%Q);
      ("summarize_large", 0.5%Q);
      ("check_accuracy", 0.005%Q);
      ("embedding", 0.01%Q) ].

(** [CARBON_COSTS_PER_CHUNK_GCO2E[k]] for the keys of the table. *)
Definition cost (k : string) : Q :=
  default 0%Q (CARBON_COSTS_PER_CHUNK_GCO2E !! k).

Definition BASELINE_COST_PER_CHUNK : Q :=
  (cost "triage_hi_res" + cost "summarize_large")%Q.

(** [settings.LOCAL_GRID_INTENSITY] and [settings.ELECTRICITY_MAPS_API_KEY]
    of core/config.py. *)
Definition LOCAL_GRID_INTENSITY : Q := 700%Q.
Definition ELECTRICITY_MAPS_API_KEY : option string := Some "t6LdqQgs3XZRGxg2VIXj".

(** [get_grid_carbon_intensity(api_key)]: both branches return the
    simulated value. *)
Definition get_grid_carbon_intensity (api_key : option string) : Q :=
  match api_key with
  | None => LOCAL_GRID_INTENSITY
  | Some k =>
      if String.eqb k "" || String.eqb k "YOUR_ELECTRICITY_MAPS_KEY_HERE"
      then LOCAL_GRID_INTENSITY
      else LOCAL_GRID_INTENSITY
  end.

(** The dict returned by [calculate_carbon_savings]; its [message], a
    rendering of two of the other fields, is left out. *)
Record CarbonReport : Type := {
  carbon_saved_grams : Q;
  baseline_cost_gco2e : Q;
  actual_cost_gco2e : Q;
  efficiency_percent : Q;
  local_grid_gco2_kwh : Q;
  compute_location : string;
  report_total_chunks : nat;
  report_chunks_escalated : nat
}.

(** [a > 0] on floats. *)
Definition is_positive (a : Q) : bool := negb (Qle_bool a 0).

(** [calculate_carbon_savings(job_id, state)]; the two arguments are
    [state.get("total_chunks")] and [state.get("chunks_escalated")], [None]
    when the key is missing. *)
Definition calculate_carbon_savings (total_chunks chunks_escalated : option nat)
  : CarbonReport :=
  let total_chunks := default 1 total_chunks in
  let chunks_escalated := default 0 chunks_escalated in
  let local_grid_gco2_kwh := get_grid_carbon_intensity ELECTRICITY_MAPS_API_KEY in
  let baseline_cost_gco2e := (BASELINE_COST_PER_CHUNK * Q_of_nat total_chunks)%Q in
  let cost_triage_and_check :=
    ((cost "triage_hi_res" + cost "check_accuracy") * Q_of_nat total_chunks)%Q in
  let cost_light_summarization :=
    (Q_of_nat total_chunks * cost "summarize_light")%Q in
  let cost_medium_summarization :=
    (Q_of_nat chunks_escalated * cost "summarize_medium")%Q in
  let cost_final_compile := (cost "summarize_large" * 1)%Q in
  let actual_cost_gco2e :=
    (cost_triage_and_check + cost_light_summarization
     + cost_medium_summarization + cost_final_compile)%Q in
  let carbon_saved_grams := (baseline_cost_gco2e - actual_cost_gco2e)%Q in
  let efficiency_percent :=
    if is_positive baseline_cost_gco2e
    then (carbon_saved_grams / baseline_cost_gco2e * 100)%Q
    else 0%Q in
  {| carbon_saved_grams := carbon_saved_grams;
     baseline_cost_gco2e := baseline_cost_gco2e;
     actual_cost_gco2e := actual_cost_gco2e;
     efficiency_percent := efficiency_percent;
     local_grid_gco2_kwh := local_grid_gco2_kwh;
     compute_location := "local_hybrid";
     report_total_chunks := total_chunks;
     report_chunks_escalated := chunks_escalated |}.

(** The cost model in the words of the design document (section 4.6), with
    the per-operation costs named after their role. *)
Definition parse_cost : Q := 0.05%Q.
Definition verify_cost : Q := 0.005%Q.
Definition light_unit_cost : Q := 0.005%Q.
Definition medium_unit_cost : Q := 0.05%Q.
Definition large_unit_cost : Q := 0.5%Q.

Definition spec_baseline (N : nat) : Q :=
  ((parse_cost + large_unit_cost) * Q_of_nat N)%Q.

Definition spec_actual (N E : nat) : Q :=
  ((parse_cost + verify_cost) * Q_of_nat N
   + light_unit_cost * Q_of_nat N
   + medium_unit_cost * Q_of_nat E
   + large_unit_cost)%Q.

End Scheduler.

(** ** core/orchestrator.py *)

Module Orchestrator.

Import Scheduler.

(** [triage.Chunk]. *)
Inductive chunk_type : Type := Title | Text | Table | List | Other.

Record Chunk : Type := {
  chunk_id : string;
  chunk_document_id : string;
  chunk_index : nat;
  chunk_kind : chunk_type;
  content : string
}.

(** [AgentState], the dict handed from node to node. A node returns the
    keys it changes and the graph driver overwrites them in the state. *)
Record AgentState : Type := {
  job_id : string;
  file_path : string;
  file_type : string;
  job_mode : option string;
  chunks : list Chunk;
  summaries : list string;
  failed_chunks : list Chunk;
  final_summary : string;
  total_chunks : nat;
  chunks_escalated : nat;
  carbon_report : option CarbonReport;
  model_usage_chars : gmap string nat
}.

Definition set_chunks (cs : list Chunk) (n : nat) (st : AgentState) : AgentState :=
  {| job_id := job_id st; file_path := file_path st; file_type := file_type st;
     job_mode := job_mode st; chunks := cs; summaries := summaries st;
     failed_chunks := failed_chunks st; final_summary := final_summary st;
     total_chunks := n; chunks_escalated := chunks_escalated st;
     carbon_report := carbon_report st;
     model_usage_chars := model_usage_chars st |}.

Definition set_summaries (ss : list string) (st : AgentState) : AgentState :=
  {| job_id := job_id st; file_path := file_path st; file_type := file_type st;
     job_mode := job_mode st; chunks := chunks st; summaries := ss;
     failed_chunks := failed_chunks st; final_summary := final_summary st;
     total_chunks := total_chunks st; chunks_escalated := chunks_escalated st;
     carbon_report := carbon_report st;
     model_usage_chars := model_usage_chars st |}.

Definition set_failed_chunks (fs : list Chunk) (st : AgentState) : AgentState :=
  {| job_id := job_id st; file_path := file_path st; file_type := file_type st;
     job_mode := job_mode st; chunks := chunks st; summaries := summaries st;
     failed_chunks := fs; final_summary := final_summary st;
     total_chunks := total_chunks st; chunks_escalated := chunks_escalated st;
     carbon_report := carbon_report st;
     model_usage_chars := model_usage_chars st |}.

Definition set_chunks_escalated (n : nat) (st : AgentState) : AgentState :=
  {| job_id := job_id st; file_path := file_path st; file_type := file_type st;
     job_mode := job_mode st; chunks := chunks st; summaries := summaries st;
     failed_chunks := failed_chunks st; final_summary := final_summary st;
     total_chunks := total_chunks st; chunks_escalated := n;
     carbon_report := carbon_report st;
     model_usage_chars := model_usage_chars st |}.

Definition set_final_summary (s : string) (st : AgentState) : AgentState :=
  {| job_id := job_id st; file_path := file_path st; file_type := file_type st;
     job_mode := job_mode st; chunks := chunks st; summaries := summaries st;
     failed_chunks := failed_chunks st; final_summary := s;
     total_chunks := total_chunks st; chunks_escalated := chunks_escalated st;
     carbon_report := carbon_report st;
     model_usage_chars := model_usage_chars st |}.

Definition set_carbon_report (r : CarbonReport) (st : AgentState) : AgentState :=
  {| job_id := job_id st; file_path := file_path st; file_type := file_type st;
     job_mode := job_mode st; chunks := chunks st; summaries := summaries st;
     failed_chunks := failed_chunks st; final_summary := final_summary st;
     total_chunks := total_chunks st; chunks_escalated := chunks_escalated st;
     carbon_report := Some r;
     model_usage_chars := model_usage_chars st |}.

Definition set_model_usage_chars (u : gmap string nat) (st : AgentState) : AgentState :=
  {| job_id := job_id st; file_path := file_path st; file_type := file_type st;
     job_mode := job_mode st; chunks := chunks st; summaries := summaries st;
     failed_chunks := failed_chunks st; final_summary := final_summary st;
     total_chunks := total_chunks st; chunks_escalated := chunks_escalated st;
     carbon_report := carbon_report st;
     model_usage_chars := u |}.

(** What a node does: the values it assigns to
    [JOB_STATUSES[job_id]["progress"]], in order, and the state it returns
    or the exception it raises. The writes made before a raise are kept. *)
Definition node_result : Type := list Q * outcome AgentState.

(** *** The worker pool

    [concurrent.futures.as_completed] yields the futures in the order in
    which the workers finish, which the scheduler of the threads decides.
    That decision is the list [picks]: each time, the future that finishes
    next is the one at position [pick mod (number still pending)] among the
    pending ones, in submission order; when [picks] runs out, the first
    pending one finishes next. Every list of numbers is a schedule, and
    every order of completion is the schedule of some list. *)
Fixpoint complete {A} (n : nat) (picks : list nat) (pending : list A) : list A :=
  match n with
  | O => []
  | S n' =>
      let k := hd 0 picks `mod` length pending in
      match pending !! k with
      | Some x => x :: complete n' (tl picks) (delete k pending)
      | None => []
      end
  end.

Definition as_completed {A} (picks : list nat) (futures : list A) : list A :=
  complete (length futures) picks futures.

(** The workers' calls, each on the content of its chunk and on the shared
    state, taken in the order in which they finish. *)
Fixpoint run_pool (run : string -> gmap string nat -> outcome string * gmap string nat)
    (done : list Chunk) (u : gmap string nat)
  : list (outcome string) * gmap string nat :=
  match done with
  | [] => ([], u)
  | c :: rest =>
      let '(o, u1) := run (content c) u in
      let '(os, u2) := run_pool run rest u1 in
      (o :: os, u2)
  end.

(** A runner that never raises. *)
Definition never_raises
    (run : string -> gmap string nat -> outcome string * gmap string nat) : Prop :=
  forall t u, exists s u', run t u = (Returned s, u').

(** [(i + 1) / total_chunks], a true division of two [int]s. *)
Definition fraction (i total : nat) : outcome Q :=
  match total with
  | O => Raised "division by zero"
  | S _ => Returned (Q_of_nat (i + 1) / Q_of_nat total)%Q
  end.

(** The loop of [map_summarize_chunks] over the finished futures:
    [future.result()] gives the worker's value or raises what it raised. *)
Fixpoint collect_light (total i : nat) (done : list (outcome string))
    (summaries : list string) : list Q * outcome (list string) :=
  match done with
  | [] => ([], Returned summaries)
  | Raised e :: _ => ([], Raised e)
  | Returned summary :: rest =>
      match fraction i total with
      | Raised e => ([], Raised e)
      | Returned f =>
          let '(w, r) := collect_light total (S i) rest (summaries ++ [summary]) in
          ((25 + f * 30)%Q :: w, r)
      end
  end.

(** The loop of [map_escalate_chunks] over the finished futures. *)
Fixpoint collect_escalated (done : list (outcome string))
    (escalated_summaries : list string) : outcome (list string) :=
  match done with
  | [] => Returned escalated_summaries
  | Raised e :: _ => Raised e
  | Returned summary :: rest =>
      collect_escalated rest (escalated_summaries ++ [summary])
  end.

(** [str.lower()] on ASCII letters. *)
Definition lower_ascii (a : ascii) : ascii :=
  let n := nat_of_ascii a in
  if Nat.leb 65 n && Nat.leb n 90 then ascii_of_nat (n + 32) else a.

Fixpoint lower (s : string) : string :=
  match s with
  | EmptyString => EmptyString
  | String a s' => String (lower_ascii a) (lower s')
  end.

Section Nodes.

(** The registry of loaded models, and the collaborators outside the
    engine: [triage.triage_document(file_path, file_type, strategy)] and
    the carbon router's analysis of a file, reduced to the summary text and
    the report that [run_carbon_router] derives from it. *)
Variable reg : Models.registry.
Variable triage_ext : string -> string -> string -> list Chunk.
Variable carbon_router_ext : string -> outcome (string * CarbonReport).

Definition TRIAGE_STRATEGY : string := "fast".

(** Node 1. *)
Definition start_job (st : AgentState) : node_result :=
  ([5%Q],
   Returned (set_model_usage_chars
               (<["light" := 0]> (<["medium" := 0]> (<["large" := 0]> ∅))) st)).

(** Node 2. *)
Definition triage_document (st : AgentState) : node_result :=
  let cs := triage_ext (file_path st) (file_type st) TRIAGE_STRATEGY in
  ([15%Q],
   match cs with
   | [] => Raised "Triage returned no chunks. Cannot proceed."
   | _ => Returned (set_chunks cs (length cs) st)
   end).

(** Node 3, under the schedule [picks] of its worker pool. *)
Definition map_summarize_chunks (picks : list nat) (st : AgentState) : node_result :=
  let done := as_completed picks (chunks st) in
  let '(results, u) :=
    run_pool (Models.run_light_summarizer reg) done (model_usage_chars st) in
  let '(w, r) := collect_light (total_chunks st) 0 results [] in
  (25%Q :: w,
   match r with
   | Raised e => Raised e
   | Returned summaries => Returned (set_summaries summaries (set_model_usage_chars u st))
   end).

(** The loop of [check_accuracy] over [enumerate(zip(chunks, summaries))];
    the two accumulators are [failed_chunks] and [passed_summaries]. *)
Fixpoint gate_loop (total i : nat) (pairs : list (Chunk * string))
    (failed : list Chunk) (passed : list string)
  : list Q * outcome (list Chunk * list string) :=
  match pairs with
  | [] => ([], Returned (failed, passed))
  | (chunk, summary) :: rest =>
      match Models.run_accuracy_check reg (content chunk) summary with
      | Raised e => ([], Raised e)
      | Returned is_accurate =>
          let failed' := if is_accurate then failed else (failed ++ [chunk])%list in
          let passed' := if is_accurate then (passed ++ [summary])%list else passed in
          match fraction i total with
          | Raised e => ([], Raised e)
          | Returned f =>
              let '(w, r) := gate_loop total (S i) rest failed' passed' in
              ((55 + f * 15)%Q :: w, r)
          end
      end
  end.

(** Node 4. *)
Definition check_accuracy (st : AgentState) : node_result :=
  let '(w, r) :=
    gate_loop (total_chunks st) 0 (zip (chunks st) (summaries st)) [] [] in
  (55%Q :: w,
   match r with
   | Raised e => Raised e
   | Returned (failed, passed) =>
       Returned (set_failed_chunks failed
                   (set_summaries passed
                      (set_chunks_escalated (length failed) st)))
   end).

(** The conditional edge after node 4. *)
Definition should_rerun (st : AgentState) : string :=
  match failed_chunks st with
  | [] => "compile"
  | _ => "escalate"
  end.

(** Node 5, under the schedule [picks] of its worker pool. *)
Definition map_escalate_chunks (picks : list nat) (st : AgentState) : node_result :=
  let done := as_completed picks (failed_chunks st) in
  let '(results, u) :=
    run_pool (Models.run_medium_summarizer reg) done (model_usage_chars st) in
  ([75%Q],
   match collect_escalated results (summaries st) with
   | Raised e => Raised e
   | Returned escalated_summaries =>
       Returned (set_failed_chunks []
                   (set_summaries escalated_summaries (set_model_usage_chars u st)))
   end).

(** Node 6. *)
Definition reduce_compile_summary (st : AgentState) : node_result :=
  let combined_text := String.concat (String "010" (String "010" EmptyString)) (summaries st) in
  ([85%Q],
   match Models.run_large_model_compile reg combined_text (model_usage_chars st) with
   | (Raised e, _) => Raised e
   | (Returned final_summary, u) =>
       Returned (set_final_summary final_summary (set_model_usage_chars u st))
   end).

(** Node 7: the call of the storage module leaves the state as it is and
    writes no progress. *)
Definition store_for_rag (st : AgentState) : node_result :=
  ([], Returned st).

(** Node 8. *)
Definition calculate_carbon (st : AgentState) : node_result :=
  ([100%Q],
   Returned (set_carbon_report
               (calculate_carbon_savings (Some (total_chunks st))
                  (Some (chunks_escalated st))) st)).

(** The node of the eco mode. *)
Definition run_carbon_router (st : AgentState) : node_result :=
  match carbon_router_ext (file_path st) with
  | Raised e => ([50%Q], Raised e)
  | Returned (summary_text, report) =>
      ([50%Q; 100%Q],
       Returned (set_carbon_report report (set_final_summary summary_text st)))
  end.

(** The conditional edge after node 1. *)
Definition route_start_job (st : AgentState) : string :=
  let mode := lower (default "balanced" (job_mode st)) in
  if String.eqb mode "eco" then "eco_mode" else "standard_mode".

(** *** The graph *)

Inductive node : Type :=
| n_start_job
| n_triage_document
| n_map_summarize_chunks
| n_check_accuracy
| n_map_escalate_chunks
| n_reduce_compile_summary
| n_store_for_rag
| n_calculate_carbon
| n_run_carbon_router
| n_END.

(** A run in progress: the node to execute next, the state, the progress
    values written so far (oldest first), the nodes executed so far, and the
    schedules of the worker pools still to come. *)
Record config : Type := {
  at_node : node;
  state : AgentState;
  progress_log : list Q;
  visited : list node;
  schedules : list (list nat)
}.

(** The edges out of a node, on the state the node returned. *)
Definition next_node (n : node) (st : AgentState) : node :=
  match n with
  | n_start_job =>
      if String.eqb (route_start_job st) "eco_mode"
      then n_run_carbon_router else n_triage_document
  | n_triage_document => n_map_summarize_chunks
  | n_map_summarize_chunks => n_check_accuracy
  | n_check_accuracy =>
      if String.eqb (should_rerun st) "escalate"
      then n_map_escalate_chunks else n_reduce_compile_summary
  | n_map_escalate_chunks => n_check_accuracy
  | n_reduce_compile_summary => n_store_for_rag
  | n_store_for_rag => n_calculate_carbon
  | n_calculate_carbon => n_END
  | n_run_carbon_router => n_END
  | n_END => n_END
  end.

(** The node's function, and whether it uses up a schedule. *)
Definition run_node (n : node) (picks : list nat) (st : AgentState) : node_result :=
  match n with
  | n_start_job => start_job st
  | n_triage_document => triage_document st
  | n_map_summarize_chunks => map_summarize_chunks picks st
  | n_check_accuracy => check_accuracy st
  | n_map_escalate_chunks => map_escalate_chunks picks st
  | n_reduce_compile_summary => reduce_compile_summary st
  | n_store_for_rag => store_for_rag st
  | n_calculate_carbon => calculate_carbon st
  | n_run_carbon_router => run_carbon_router st
  | n_END => ([], Returned st)
  end.

Definition uses_pool (n : node) : bool :=
  match n with
  | n_map_summarize_chunks | n_map_escalate_chunks => true
  | _ => false
  end.

(** One node of the run: the configuration after it, or the exception
    that ends the run together with the progress written until then. *)
Definition step (c : config) : outcome config * list Q :=
  let n := at_node c in
  let '(w, r) := run_node n (hd [] (schedules c)) (state c) in
  let log := (progress_log c ++ w)%list in
  match r with
  | Raised e => (Raised e, log)
  | Returned st =>
      (Returned {| at_node := next_node n st;
                   state := st;
                   progress_log := log;
                   visited := (visited c ++ [n])%list;
                   schedules := if uses_pool n then tl (schedules c) else schedules c |},
       log)
  end.

(** How a bounded run ends. *)
Inductive ending : Type :=
| Finished (c : config)
| Failed (msg : string) (log : list Q)
| Running (c : config).

(** [agentic_graph.invoke(initial_state)], for at most [fuel] nodes. *)
Fixpoint run (fuel : nat) (c : config) : ending :=
  match at_node c with
  | n_END => Finished c
  | _ =>
      match fuel with
      | O => Running c
      | S fuel' =>
          match step c with
          | (Raised e, log) => Failed e log
          | (Returned c', _) => run fuel' c'
          end
      end
  end.

Definition initial_config (st : AgentState) (schedules : list (list nat)) : config :=
  {| at_node := n_start_job; state := st; progress_log := [];
     visited := []; schedules := schedules |}.

(** The progress written over a job by [run_orchestrator_job] of
    api/main.py: its own first write, the writes of the graph, and its last
    write, which is 100 both when the graph returns and when it raises.
    [None] while the run has not ended within [fuel] nodes. *)
Definition job_progress (fuel : nat) (st : AgentState) (schedules : list (list nat))
  : option (list Q) :=
  match run fuel (initial_config st schedules) with
  | Finished c => Some (5%Q :: progress_log c ++ [100%Q])%list
  | Failed _ log => Some (5%Q :: log ++ [100%Q])%list
  | Running _ => None
  end.

(** The configurations a bounded run goes through, the first one included. *)
Fixpoint trace (fuel : nat) (c : config) : list config :=
  c :: match at_node c with
       | n_END => []
       | _ =>
           match fuel with
           | O => []
           | S fuel' =>
               match step c with
               | (Raised _, _) => []
               | (Returned c', _) => trace fuel' c'
               end
           end
       end.

(** The units of a job: what triage returns for its file. *)
Definition units_of (st : AgentState) : list Chunk :=
  triage_ext (file_path st) (file_type st) TRIAGE_STRATEGY.

Definition past_triage (n : node) : bool :=
  match n with
  | n_map_summarize_chunks | n_check_accuracy | n_map_escalate_chunks
  | n_reduce_compile_summary | n_store_for_rag | n_calculate_carbon => true
  | _ => false
  end.

(** The invariant of a run started on [st0]. *)
Definition run_invariant (st0 : AgentState) (c : config) : Prop :=
  file_path (state c) = file_path st0
  /\ file_type (state c) = file_type st0
  /\ job_mode (state c) = job_mode st0
  /\ (visited c = [] -> at_node c = n_start_job)
  /\ (forall n, last (visited c) = Some n -> at_node c = next_node n (state c))
  /\ (past_triage (at_node c) = true ->
      chunks (state c) = units_of st0
      /\ total_chunks (state c) = length (units_of st0)
      /\ units_of st0 <> [])
  /\ (at_node c = n_check_accuracy ->
      length (summaries (state c)) = length (chunks (state c)))
  /\ (at_node c = n_map_escalate_chunks ->
      length (summaries (state c)) + length (failed_chunks (state c))
      = length (chunks (state c))).


(** The verifier's answer on a pair of the gate. *)
Definition accepts (pair : Chunk * string) : bool :=
  match Models.run_accuracy_check reg (content pair.1) pair.2 with
  | Returned b => b
  | Raised _ => true
  end.

End Nodes.

(** The chunks handed to the escalation node, pass by pass, along a run. *)
Definition escalations (tr : list config) : list (list Chunk) :=
  failed_chunks <$> (state <$>
    List.filter (fun c => match at_node c with
                          | n_map_escalate_chunks => true
                          | _ => false
                          end) tr).


(** [progress] never decreases along a list of writes. *)
Fixpoint nondecreasing (l : list Q) : bool :=
  match l with
  | [] => true
  | x :: rest =>
      match rest with
      | [] => true
      | y :: _ => Qle_bool x y && nondecreasing rest
      end
  end.

End Orchestrator.

(** ** Concrete collaborators and inputs

    Stand-ins for the external capabilities, used to run the engine on
    explicit inputs. *)

Module Scenario.

Import Models Scheduler Orchestrator.

(** A light summarizer that answers "L:" followed by its input, and one
    whose call raises. *)
Definition pipe_ok : model_obj :=
  Pipeline (fun text _ _ => Returned [ {[ "summary_text" := "L:" ++ text ]} ]).
Definition pipe_down : model_obj :=
  Pipeline (fun _ _ _ => Raised "model unavailable").

(** A medium summarizer that answers "M:" followed by its prompt, and one
    whose call raises. *)
Definition chat_ok : model_obj :=
  OllamaClient
    (fun prompt => Returned {[ "message" := {[ "content" := "M:" ++ prompt ]} ]}).
Definition chat_down : model_obj :=
  OllamaClient (fun _ => Raised "connection refused").

(** A tokenizer that hands the text on, and a classifier that answers
    "contradiction" (0) on the inputs [rejects] selects and "entailment" (2)
    on the others. *)
Definition tokenizer_ok : model_obj := Tokenizer (fun s => Returned s).
Definition classifier (rejects : string -> bool) : model_obj :=
  Classifier (fun input => Returned (if rejects input then 0 else 2)).

(** A registry with the two local summarizers and a verifier, and no large
    model. *)
Definition install (light medium checker : model_obj) : registry :=
  <["summarizer_light" := Some light]>
    (<["ollama_client" := Some medium]>
       (<["checker_tokenizer" := Some tokenizer_ok]>
          (<["checker_model" := Some checker]>
             (<["summarizer_large" := None]> ∅)))).

Definition zero_usage : gmap string nat :=
  <["light" := 0]> (<["medium" := 0]> (<["large" := 0]> ∅)).

Definition unit_of (i : nat) (text : string) : Chunk :=
  {| chunk_id := text; chunk_document_id := "doc"; chunk_index := i;
     chunk_kind := Text; content := text |}.

(** The initial state built by [run_orchestrator_job]. *)
Definition new_job : AgentState :=
  {| job_id := "job"; file_path := "uploads/job_file.pdf";
     file_type := "application/pdf"; job_mode := Some "balanced";
     chunks := []; summaries := []; failed_chunks := [];
     final_summary := ""; total_chunks := 0; chunks_escalated := 0;
     carbon_report := None; model_usage_chars := zero_usage |}.

Definition triage_gives (cs : list Chunk) : string -> string -> string -> list Chunk :=
  fun _ _ _ => cs.

Definition no_router : string -> outcome (string * CarbonReport) :=
  fun _ => Raised "carbon router not reachable".

(** A verifier that rejects every pair. *)
Definition always_reject : registry :=
  install pipe_ok chat_ok (classifier (fun _ => true)).

(** A verifier that accepts every pair. *)
Definition always_accept : registry :=
  install pipe_ok chat_ok (classifier (fun _ => false)).

(** A verifier that rejects exactly the light-tier summaries. *)
Definition rejects_light : registry :=
  install pipe_ok chat_ok (classifier (contains "[HYPOTHESIS] L:")).

Definition two_units : list Chunk := [unit_of 0 "a"; unit_of 1 "b"].

Definition five_units : list Chunk :=
  [unit_of 0 "c0"; unit_of 1 "c1"; unit_of 2 "c2"; unit_of 3 "c3"; unit_of 4 "c4"].

(** A verifier that rejects a pair exactly when its original text is that
    of unit 1 or of unit 3, whatever the summary. *)
Definition rejects_units_1_3 : registry :=
  install pipe_ok chat_ok
    (classifier (fun input => contains "[PREMISE] c1 " input
                              || contains "[PREMISE] c3 " input)).

(** A verifier that rejects exactly the light-tier summaries of units 1
    and 3. *)
Definition rejects_light_1_3 : registry :=
  install pipe_ok chat_ok
    (classifier (fun input => contains "[HYPOTHESIS] L:c1" input
                              || contains "[HYPOTHESIS] L:c3" input)).

(** A registry whose checker failed to load, and one whose classifier
    raises on every input. *)
Definition checker_not_loaded : registry :=
  load_checker_model (Returned tokenizer_ok) (Raised "model not found")
    (<["summarizer_light" := Some pipe_ok]> (<["ollama_client" := Some chat_ok]> ∅)).

Definition checker_raises : registry :=
  install pipe_ok chat_ok (Classifier (fun _ => Raised "out of memory")).

(** Two units with their light summaries, as the first map pass leaves
    them. *)
Definition two_summarized : AgentState :=
  set_summaries ["L:a"; "L:b"] (set_chunks two_units 2 new_job).

(** Five units with their light summaries, as the first map pass leaves
    them when the futures complete in submission order. *)
Definition five_summarized : AgentState :=
  set_summaries ["L:c0"; "L:c1"; "L:c2"; "L:c3"; "L:c4"]
    (set_chunks five_units 5 new_job).

End Scenario.

(** ** Further concrete collaborators *)

Module MoreScenario.

Import Models Scheduler Orchestrator Scenario.

(** A large-tier client that is rate limited twice and then answers, one
    that is always rate limited, and one that breaks down at the second
    attempt. *)
Definition groq_third_time : model_obj :=
  GroqClient (fun attempt _ =>
                match attempt with
                | 0 | 1 => Raised "Error code: 429 - rate limit reached"
                | _ => Returned "executive summary"
                end).

Definition groq_rate_limited : model_obj :=
  GroqClient (fun _ _ => Raised "Error code: 429 - rate limit reached").

Definition groq_breaks : model_obj :=
  GroqClient (fun attempt _ =>
                match attempt with
                | 0 => Raised "Error code: 429 - rate limit reached"
                | _ => Raised "Error code: 500 - internal error"
                end).

Definition with_large (client : model_obj) : registry :=
  <["summarizer_large" := Some client]> always_accept.

(** A light pipeline that refuses inputs longer than 1024 characters and
    minimal lengths outside 5..30, and answers as [pipe_ok] otherwise. *)
Definition pipe_picky : model_obj :=
  Pipeline (fun text _ min_length =>
              if Nat.ltb 1024 (String.length text)
                 || Nat.ltb min_length 5 || Nat.ltb 30 min_length
              then Raised "index out of range in self"
              else Returned [ {[ "summary_text" := "L:" ++ text ]} ]).


(** A job submitted in eco mode, spelled in capitals, and a carbon router
    that answers. *)
Definition eco_job : AgentState :=
  {| job_id := "job"; file_path := "uploads/job_file.pdf";
     file_type := "application/pdf"; job_mode := Some "ECO";
     chunks := []; summaries := []; failed_chunks := [];
     final_summary := ""; total_chunks := 0; chunks_escalated := 0;
     carbon_report := None; model_usage_chars := zero_usage |}.

Definition eco_report : CarbonReport :=
  {| carbon_saved_grams := 0.5%Q; baseline_cost_gco2e := 1.5%Q;
     actual_cost_gco2e := 1%Q; efficiency_percent := (100 # 3)%Q;
     local_grid_gco2_kwh := 250%Q; compute_location := "US-OR";
     report_total_chunks := 1; report_chunks_escalated := 0 |}.

Definition router_answers : string -> outcome (string * CarbonReport) :=
  fun _ => Returned ("CARBON ROUTER ANALYSIS", eco_report).

End MoreScenario.

(** ** Observations on runs *)

Module Observers.

Import Models Scheduler Orchestrator.

(** The nodes from the compile step on. *)
Definition settled (n : node) : bool :=
  match n with
  | n_reduce_compile_summary | n_store_for_rag | n_calculate_carbon | n_END => true
  | _ => false
  end.

(** The invariant of a standard-mode run started on [st0]: the carbon
    router is never reached; from the compile step on no chunk is listed as
    failed and none is counted as escalated; at the end the report is that
    of a run without escalation. *)
Definition standard_invariant
    (triage_ext : string -> string -> string -> list Chunk)
    (st0 : AgentState) (c : config) : Prop :=
  run_invariant triage_ext st0 c
  /\ at_node c <> n_run_carbon_router
  /\ (settled (at_node c) = true ->
      chunks_escalated (state c) = 0 /\ failed_chunks (state c) = [])
  /\ (at_node c = n_END ->
      carbon_report (state c)
      = Some (calculate_carbon_savings
                (Some (length (units_of triage_ext st0))) (Some 0))).

(** The text the light tier gives for a chunk under the counters [u]. *)
Definition light_text (reg : registry) (u : gmap string nat) (c : Chunk) : string :=
  match (run_light_summarizer reg (content c) u).1 with
  | Returned s => s
  | Raised _ => ""
  end.

(** A list of progress values that never decreases and stays between
    [lo] and [hi]. *)
Definition climbs (lo hi : Q) (l : list Q) : Prop :=
  nondecreasing l = true /\ Forall (fun p => (lo <= p)%Q /\ (p <= hi)%Q) l.

(** The progress reached when a node is about to run, in a run that has
    not escalated. *)
Definition level (n : node) : Q :=
  match n with
  | n_start_job | n_triage_document | n_run_carbon_router => 5
  | n_map_summarize_chunks => 15
  | n_check_accuracy => 55
  | n_map_escalate_chunks | n_reduce_compile_summary => 70
  | n_store_for_rag | n_calculate_carbon => 85
  | n_END => 100
  end%Q.

(** The invariant of a run that has not escalated. *)
Definition climbing
    (triage_ext : string -> string -> string -> list Chunk)
    (st0 : AgentState) (c : config) : Prop :=
  run_invariant triage_ext st0 c
  /\ climbs 5 (level (at_node c)) (progress_log c).

End Observers.

(** ** agents/triage.py *)

Module Triage.

Import Orchestrator.

(** The elements of the [unstructured] library that [triage_document]
    tells apart; [el_Table] carries [el.text] and [el.metadata.text_as_html],
    which may be [None]. Any other element class is [el_other]. *)
Inductive Element : Type :=
| el_Title (text : string)
| el_NarrativeText (text : string)
| el_ListItem (text : string)
| el_Table (text : string) (text_as_html : option string)
| el_other (text : string).

(** [str.isspace] on the code points below 256. *)
Definition is_whitespace (a : ascii) : bool :=
  match nat_of_ascii a with
  | 9 | 10 | 11 | 12 | 13 | 28 | 29 | 30 | 31 | 32 | 133 | 160 => true
  | _ => false
  end.

(** The truth value of [content.strip()]: some character is no white
    space. *)
Fixpoint nonblank (s : string) : bool :=
  match s with
  | EmptyString => false
  | String a s' => negb (is_whitespace a) || nonblank s'
  end.

(** [s.split(sep)] for a separator of one character. *)
Fixpoint split_on (sep : ascii) (s : string) : list string :=
  match s with
  | EmptyString => [EmptyString]
  | String a s' =>
      if Ascii.eqb a sep then EmptyString :: split_on sep s'
      else match split_on sep s' with
           | h :: t => String a h :: t
           | [] => [String a EmptyString]
           end
  end.

(** [file_path.split("/")[-1].split("_")[0]]. *)
Definition document_id_of (file_path : string) : string :=
  hd EmptyString (split_on "_" (List.last (split_on "/" file_path) EmptyString)).

(** An f-string prints [None] as such. *)
Definition format_html (text_as_html : option string) : string :=
  default "None" text_as_html.

Definition table_content (text : string) (text_as_html : option string) : string :=
  (("--- TABLE START ---" ++ String "010" EmptyString)
   ++ ("HTML:" ++ String "010" EmptyString ++ format_html text_as_html
       ++ String "010" (String "010" EmptyString))
   ++ ("TEXT:" ++ String "010" EmptyString ++ text ++ String "010" EmptyString)
   ++ "--- TABLE END ---")%string.

(** The type and the content that the loop gives to an element. *)
Definition element_chunk (el : Element) : chunk_type * string :=
  match el with
  | el_Title text => (Title, text)
  | el_NarrativeText text => (Text, text)
  | el_ListItem text => (List, text)
  | el_Table text text_as_html => (Table, table_content text text_as_html)
  | el_other _ => (Other, EmptyString)
  end.

(** The loop over the elements; [chunk_index] counts the chunks kept. *)
Fixpoint convert (document_id : string) (chunk_index : nat) (elements : list Element)
  : list Chunk :=
  match elements with
  | [] => []
  | el :: rest =>
      let '(kind, content) := element_chunk el in
      if nonblank content then
        {| chunk_id := document_id ++ "_chunk_" ++ pretty chunk_index;
           chunk_document_id := document_id;
           chunk_index := chunk_index;
           chunk_kind := kind;
           content := content |}
        :: convert document_id (S chunk_index) rest
      else convert document_id chunk_index rest
  end.

Section Partition.

(** [unstructured.partition.auto.partition(filename, content_type,
    strategy)]. *)
Variable partition : string -> string -> string -> outcome (list Element).

Definition triage_document (file_path file_type strategy : string) : list Chunk :=
  match partition file_path file_type strategy with
  | Returned elements => convert (document_id_of file_path) 0 elements
  | Raised _ =>
      if String.eqb strategy "hi_res" then
        match partition file_path file_type "fast" with
        | Returned elements => convert (document_id_of file_path) 0 elements
        | Raised _ => []
        end
      else []
  end.

End Partition.

End Triage.

(** ** api/main.py: the path of an uploaded file *)

Module Upload.

Definition UPLOAD_DIR : string := "temp_uploads".

Definition startswith (a : ascii) (s : string) : bool :=
  match s with
  | String b _ => Ascii.eqb b a
  | EmptyString => false
  end.

Fixpoint endswith (a : ascii) (s : string) : bool :=
  match s with
  | EmptyString => false
  | String b EmptyString => Ascii.eqb b a
  | String _ s' => endswith a s'
  end.

(** [os.path.join(a, b)] of [posixpath]. *)
Definition os_path_join (a b : string) : string :=
  if startswith "/" b then b
  else if String.eqb a EmptyString || endswith "/" a then a ++ b
  else a ++ "/" ++ b.

(** [os.path.basename(p)]: what follows the last slash. *)
Definition os_path_basename (p : string) : string :=
  List.last (Triage.split_on "/" p) EmptyString.

(** [s.split(sep, 1)]. *)
Fixpoint split_first (sep : ascii) (s : string) : option (string * string) :=
  match s with
  | EmptyString => None
  | String a s' =>
      if Ascii.eqb a sep then Some (EmptyString, s')
      else match split_first sep s' with
           | Some (h, t) => Some (String a h, t)
           | None => None
           end
  end.

Definition split_once (sep : ascii) (s : string) : list string :=
  match split_first sep s with
  | Some (h, t) => [h; t]
  | None => [s]
  end.

(** The path that [save_upload_file] writes the upload to. *)
Definition upload_path (job_id filename : string) : string :=
  os_path_join UPLOAD_DIR (job_id ++ "_" ++ filename).

(** The [filename] of the result that [run_orchestrator_job] stores:
    [os.path.basename(file_path).split('_', 1)[-1]]. *)
Definition result_filename (file_path : string) : string :=
  List.last (split_once "_" (os_path_basename file_path)) EmptyString.

(** [a in s] for a single character. *)
Fixpoint mentions (a : ascii) (s : string) : bool :=
  match s with
  | EmptyString => false
  | String b s' => Ascii.eqb b a || mentions a s'
  end.

End Upload.

(** * Properties *)

(** ** The model runners *)

Module ModelsFacts.

Import Models Scenario.

(** Destructs the [match]es of a runner's body down to its results. *)
Ltac split_body :=
  repeat (case_match; simplify_eq/=; eauto).

Lemma add_usage_Some tier n (u : gmap string nat) old :
  u !! tier = Some old -> add_usage tier n u = Returned (<[tier := old + n]> u).
Proof. intros H. unfold add_usage, getitem. by rewrite H. Qed.

Lemma run_light_summarizer_returns reg text (u : gmap string nat) :
  exists s u', run_light_summarizer reg text u = (Returned s, u').
Proof. unfold run_light_summarizer. split_body. Qed.

Lemma run_medium_summarizer_returns reg text (u : gmap string nat) :
  exists s u', run_medium_summarizer reg text u = (Returned s, u').
Proof. unfold run_medium_summarizer. split_body. Qed.

Lemma large_loop_returns obj todo attempt text (u : gmap string nat) :
  exists s u', large_loop obj todo attempt text u = (Returned s, u').
Proof.
  revert attempt u. induction todo as [|todo IH]; intros attempt u; simpl.
  - eauto.
  - destruct (large_attempt obj attempt text u) as [[s|e] u1]; [eauto|].
    destruct (contains "429" e); eauto.
Qed.

Lemma run_large_model_compile_returns reg text (u : gmap string nat) :
  exists s u', run_large_model_compile reg text u = (Returned s, u').
Proof.
  unfold run_large_model_compile. destruct (get reg "summarizer_large").
  - apply large_loop_returns.
  - apply run_medium_summarizer_returns.
Qed.

Lemma run_accuracy_check_returns reg original_text summary :
  exists b, run_accuracy_check reg original_text summary = Returned b.
Proof. unfold run_accuracy_check. split_body. Qed.

Lemma run_accuracy_check_fail_open reg original_text summary :
  verifier_down reg original_text summary ->
  run_accuracy_check reg original_text summary = Returned true.
Proof.
  unfold run_accuracy_check.
  intros [H | [H | (tk & m & e & Ht & Hm & He)]].
  - by rewrite H.
  - rewrite H. by destruct (get reg "checker_tokenizer").
  - by rewrite Ht, Hm, He.
Qed.


(** The light tier when the call of the pipeline raises. *)
Lemma light_capability_raises reg pipe text e (u : gmap string nat) :
  get reg "summarizer_light" = Some (Pipeline pipe) ->
  pipe (truncate text) 150 (calculated_min (truncate text)) = Raised e ->
  run_light_summarizer reg text u = (Returned generation_failed, u).
Proof.
  intros Hreg Hcall. unfold run_light_summarizer, light_body.
  by rewrite Hreg, Hcall.
Qed.

(** The light tier once the call of the pipeline has returned: the counter
    grows by the size of the (truncated) text, whatever the result holds. *)
Lemma light_capability_returns reg pipe text result n (u : gmap string nat) :
  get reg "summarizer_light" = Some (Pipeline pipe) ->
  pipe (truncate text) 150 (calculated_min (truncate text)) = Returned result ->
  u !! "light" = Some n ->
  snd (run_light_summarizer reg text u)
  = <["light" := n + String.length (truncate text)]> u.
Proof.
  intros Hreg Hcall Hu. unfold run_light_summarizer, light_body.
  rewrite Hreg, Hcall, (add_usage_Some _ _ _ _ Hu).
  destruct (getitem0 result) as [d|e']; [destruct (getitem d "summary_text")|]; done.
Qed.

Lemma medium_capability_raises reg chat text e (u : gmap string nat) :
  get reg "ollama_client" = Some (OllamaClient chat) ->
  chat (medium_prompt text) = Raised e ->
  run_medium_summarizer reg text u = (Returned generation_failed, u).
Proof.
  intros Hreg Hcall. unfold run_medium_summarizer, medium_body.
  by rewrite Hreg, Hcall.
Qed.

Lemma medium_capability_returns reg chat text response n (u : gmap string nat) :
  get reg "ollama_client" = Some (OllamaClient chat) ->
  chat (medium_prompt text) = Returned response ->
  u !! "medium" = Some n ->
  snd (run_medium_summarizer reg text u)
  = <["medium" := n + String.length text]> u.
Proof.
  intros Hreg Hcall Hu. unfold run_medium_summarizer, medium_body.
  rewrite Hreg, Hcall, (add_usage_Some _ _ _ _ Hu).
  destruct (getitem response "message") as [m|e']; [destruct (getitem m "content")|]; done.
Qed.

(** C8, as the code has it. A single-unit summarization call of either
    tier never raises: a missing capability gives the "not loaded" sentinel
    and a capability call that raises gives "Summary generation failed.",
    and in both cases the usage counters are left as they were. The tier's
    counter grows, by the length of the text submitted (for the light tier
    the input cut to 1024 characters), only once the capability call has
    returned. *)
Theorem summarizer_isolates_failure reg text (u : gmap string nat) :
  (exists s u', run_light_summarizer reg text u = (Returned s, u'))
  /\ (exists s u', run_medium_summarizer reg text u = (Returned s, u'))
  /\ (get reg "summarizer_light" = None ->
      run_light_summarizer reg text u = (Returned light_not_loaded, u))
  /\ (get reg "ollama_client" = None ->
      run_medium_summarizer reg text u = (Returned medium_not_loaded, u))
  /\ (forall pipe e,
        get reg "summarizer_light" = Some (Pipeline pipe) ->
        pipe (truncate text) 150 (calculated_min (truncate text)) = Raised e ->
        run_light_summarizer reg text u = (Returned generation_failed, u))
  /\ (forall chat e,
        get reg "ollama_client" = Some (OllamaClient chat) ->
        chat (medium_prompt text) = Raised e ->
        run_medium_summarizer reg text u = (Returned generation_failed, u))
  /\ (forall pipe result n,
        get reg "summarizer_light" = Some (Pipeline pipe) ->
        pipe (truncate text) 150 (calculated_min (truncate text)) = Returned result ->
        u !! "light" = Some n ->
        snd (run_light_summarizer reg text u)
        = <["light" := n + String.length (truncate text)]> u)
  /\ (forall chat response n,
        get reg "ollama_client" = Some (OllamaClient chat) ->
        chat (medium_prompt text) = Returned response ->
        u !! "medium" = Some n ->
        snd (run_medium_summarizer reg text u)
        = <["medium" := n + String.length text]> u).
Proof.
  split; [apply run_light_summarizer_returns|].
  split; [apply run_medium_summarizer_returns|].
  split; [intros H; unfold run_light_summarizer; by rewrite H|].
  split; [intros H; unfold run_medium_summarizer; by rewrite H|].
  split; [intros; by eapply light_capability_raises|].
  split; [intros; by eapply medium_capability_raises|].
  split; intros.
  - by eapply light_capability_returns.
  - by eapply medium_capability_returns.
Qed.

(** The theorem at work: with the light pipeline down the call on "abc"
    gives the sentinel and leaves the counters, and with it up the counter
    of the light tier goes from 0 to 3. *)
Lemma summarizer_isolates_failure_witness :
  run_light_summarizer (install pipe_down chat_ok (classifier (fun _ => false)))
    "abc" zero_usage
  = (Returned generation_failed, zero_usage)
  /\ snd (run_light_summarizer always_accept "abc" zero_usage)
     = <["light" := 0 + 3]> zero_usage.
Proof.
  split.
  - destruct (summarizer_isolates_failure
                (install pipe_down chat_ok (classifier (fun _ => false)))
                "abc" zero_usage) as (_ & _ & _ & _ & H & _).
    eapply H; reflexivity.
  - destruct (summarizer_isolates_failure always_accept "abc" zero_usage)
      as (_ & _ & _ & _ & _ & _ & H & _).
    eapply (H _ _ 0); reflexivity.
Defined.

(** C8 as stated fails: when the light pipeline raises on a three-character
    text, and likewise when the medium client does, the call returns the
    sentinel but the tier's counter stays at 0 instead of growing by 3. *)
Lemma failed_attempt_is_not_counted :
  let light_down := install pipe_down chat_ok (classifier (fun _ => false)) in
  let medium_down := install pipe_ok chat_down (classifier (fun _ => false)) in
  run_light_summarizer light_down "abc" zero_usage
  = (Returned generation_failed, zero_usage)
  /\ snd (run_light_summarizer light_down "abc" zero_usage) !! "light" = Some 0
  /\ snd (run_light_summarizer light_down "abc" zero_usage) !! "light"
     <> Some (0 + String.length "abc")
  /\ run_medium_summarizer medium_down "abc" zero_usage
     = (Returned generation_failed, zero_usage)
  /\ snd (run_medium_summarizer medium_down "abc" zero_usage) !! "medium"
     <> Some (0 + String.length "abc").
Proof. repeat split; try reflexivity; vm_compute; discriminate. Qed.

End ModelsFacts.

(** ** The cost model *)

Module SchedulerFacts.

Import Scheduler.
Local Open Scope Q_scope.

Lemma cost_values :
  cost "triage_hi_res" = 0.05 /\ cost "summarize_light" = 0.005 /\
  cost "summarize_medium" = 0.05 /\ cost "summarize_large" = 0.5 /\
  cost "check_accuracy" = 0.005.
Proof. repeat split; reflexivity. Qed.

Lemma baseline_value N E :
  baseline_cost_gco2e (calculate_carbon_savings (Some N) (Some E))
  == 0.55 * Q_of_nat N.
Proof.
  simpl. unfold BASELINE_COST_PER_CHUNK.
  destruct cost_values as (-> & _ & _ & -> & _). ring.
Qed.

Lemma actual_value N E :
  actual_cost_gco2e (calculate_carbon_savings (Some N) (Some E))
  == spec_actual N E.
Proof.
  unfold calculate_carbon_savings, spec_actual. simpl.
  destruct cost_values as (-> & -> & -> & -> & ->).
  unfold parse_cost, verify_cost, light_unit_cost, medium_unit_cost, large_unit_cost.
  ring.
Qed.

(** The savings in hundredths of a gram: [49 N - 5 E - 50]. *)
Lemma saved_value N E :
  carbon_saved_grams (calculate_carbon_savings (Some N) (Some E))
  == 0.01 * inject_Z (49 * Z.of_nat N - 5 * Z.of_nat E - 50).
Proof.
  unfold calculate_carbon_savings, BASELINE_COST_PER_CHUNK, Q_of_nat. simpl.
  destruct cost_values as (-> & -> & -> & -> & ->).
  unfold Z.sub. rewrite !inject_Z_plus, !inject_Z_opp, !inject_Z_mult.
  ring.
Qed.

Lemma is_positive_spec a : is_positive a = true <-> 0 < a.
Proof.
  unfold is_positive. rewrite negb_true_iff, <- not_true_iff_false, Qle_bool_iff.
  split; [apply Qnot_le_lt | apply Qlt_not_le].
Qed.

(** No whole numbers [E <= N], [N >= 1] make the savings vanish. *)
Lemma saved_nonzero N E : (E <= N)%nat -> (1 <= N)%nat ->
  ~ carbon_saved_grams (calculate_carbon_savings (Some N) (Some E)) == 0.
Proof.
  intros HE HN Hz. rewrite saved_value in Hz.
  assert (inject_Z (49 * Z.of_nat N - 5 * Z.of_nat E - 50) == inject_Z 0) as H.
  { change (inject_Z 0) with 0. revert Hz.
    generalize (inject_Z (49 * Z.of_nat N - 5 * Z.of_nat E - 50)).
    intros q Hq. lra. }
  apply (proj1 (inject_Z_injective _ _)) in H. lia.
Qed.

(** C5. The report is a function of the two counts alone, and for all
    naturals N and E its baseline is (parse + large-tier cost) x N, its
    actual cost is (parse + verify) x N + light-tier cost x N + medium-tier
    cost x E + one large-tier compile, and its savings are the baseline less
    the actual cost; equal pairs give identical reports. *)
Theorem cost_model_formula (N E : nat) :
  let r := calculate_carbon_savings (Some N) (Some E) in
  baseline_cost_gco2e r == spec_baseline N
  /\ actual_cost_gco2e r == spec_actual N E
  /\ carbon_saved_grams r == spec_baseline N - spec_actual N E
  /\ carbon_saved_grams r = baseline_cost_gco2e r - actual_cost_gco2e r
  /\ report_total_chunks r = N
  /\ report_chunks_escalated r = E
  /\ (forall N' E', N' = N -> E' = E ->
      calculate_carbon_savings (Some N') (Some E') = r).
Proof.
  intros r. subst r.
  assert (baseline_cost_gco2e (calculate_carbon_savings (Some N) (Some E))
          == spec_baseline N) as Hb by reflexivity.
  pose proof (actual_value N E) as Ha.
  repeat split; try assumption.
  - change (carbon_saved_grams (calculate_carbon_savings (Some N) (Some E)))
      with (baseline_cost_gco2e (calculate_carbon_savings (Some N) (Some E))
            - actual_cost_gco2e (calculate_carbon_savings (Some N) (Some E))).
    by rewrite Hb, Ha.
  - by intros N' E' -> ->.
Qed.

(** C9. For E <= N the efficiency percentage is 0 exactly when the
    baseline is not positive. *)
Theorem efficiency_zero_iff_no_baseline (N E : nat) :
  (E <= N)%nat ->
  let r := calculate_carbon_savings (Some N) (Some E) in
  (efficiency_percent r == 0 <-> baseline_cost_gco2e r <= 0)
  /\ ((1 <= N)%nat -> 0 < baseline_cost_gco2e r /\ ~ efficiency_percent r == 0).
Proof.
  intros HE r.
  assert (He : efficiency_percent r
               = if is_positive (baseline_cost_gco2e r)
                 then carbon_saved_grams r / baseline_cost_gco2e r * 100
                 else 0) by reflexivity.
  assert (Hquot : forall s b, ~ b == 0 -> s / b * 100 == 0 -> s == 0).
  { intros s b Hnz H0.
    assert (s == s / b * 100 * (b / 100)) as -> by (field; assumption).
    rewrite H0. ring. }
  assert (Hbase : (1 <= N)%nat -> 0 < baseline_cost_gco2e r).
  { intros HN. subst r. rewrite baseline_value.
    assert (inject_Z 0 < Q_of_nat N) as Hp
      by (unfold Q_of_nat; rewrite <- Zlt_Qlt; lia).
    change (inject_Z 0) with 0 in Hp. revert Hp.
    generalize (Q_of_nat N). intros q Hq. lra. }
  assert (Hiff : efficiency_percent r == 0 <-> baseline_cost_gco2e r <= 0).
  { rewrite He. destruct (is_positive (baseline_cost_gco2e r)) eqn:Hp.
    - apply is_positive_spec in Hp.
      assert (1 <= N)%nat as HN.
      { destruct N; [|lia]. exfalso. subst r. rewrite baseline_value in Hp.
        vm_compute in Hp. discriminate. }
      pose proof (saved_nonzero N E HE HN) as Hs. fold r in Hs.
      split; [|intros Hle; lra].
      intros H0. exfalso. apply Hs. apply (Hquot _ (baseline_cost_gco2e r)); [lra|done].
    - split; [intros _|reflexivity].
      apply Qnot_lt_le. intros H. apply is_positive_spec in H. congruence. }
  split; [exact Hiff|].
  intros HN. split; [by apply Hbase|].
  rewrite Hiff. apply Qlt_not_le. by apply Hbase.
Qed.

(** The theorem at five units of which two were escalated: the baseline is
    2.75 g, so the efficiency (about 67 per cent) is not 0. *)
Lemma efficiency_zero_iff_no_baseline_witness :
  baseline_cost_gco2e (calculate_carbon_savings (Some 5%nat) (Some 2%nat)) == 2.75
  /\ ~ efficiency_percent (calculate_carbon_savings (Some 5%nat) (Some 2%nat)) == 0.
Proof.
  split; [reflexivity|].
  refine (proj2 (proj2 (efficiency_zero_iff_no_baseline 5%nat 2%nat _) _)); lia.
Defined.

(** Outside the range of the claim the equivalence breaks: 39 escalations
    of 5 units cost exactly the baseline. *)
Example efficiency_zero_beyond_range :
  let r := calculate_carbon_savings (Some 5%nat) (Some 39%nat) in
  efficiency_percent r == 0 /\ 0 < baseline_cost_gco2e r.
Proof. split; reflexivity. Qed.

End SchedulerFacts.

(** ** The worker pool *)

Module PoolFacts.

Import Models Orchestrator.
Local Open Scope list_scope.

Section Completion.

Context {A : Type}.
Implicit Types (pending futures : list A) (picks : list nat).

Lemma complete_Permutation n picks pending :
  length pending = n -> complete n picks pending ≡ₚ pending.
Proof.
  revert picks pending. induction n as [|n IH]; intros picks pending Hlen; simpl.
  - by destruct pending.
  - assert (hd 0 picks `mod` length pending < length pending) as Hk
      by (apply Nat.mod_upper_bound; lia).
    destruct (lookup_lt_is_Some_2 _ _ Hk) as [x Hx]. rewrite Hx.
    transitivity (x :: delete (hd 0 picks `mod` length pending) pending).
    + constructor. apply IH. rewrite length_delete by eauto. lia.
    + symmetry. by apply delete_Permutation.
Qed.

(** Whatever the schedule, the futures that complete are the futures that
    were submitted, each once. *)
Lemma as_completed_Permutation picks futures :
  as_completed picks futures ≡ₚ futures.
Proof. by apply complete_Permutation. Qed.

Lemma as_completed_length picks futures :
  length (as_completed picks futures) = length futures.
Proof. by rewrite as_completed_Permutation. Qed.

(** With no preemption the futures complete in submission order. *)
Lemma as_completed_in_order futures : as_completed [] futures = futures.
Proof.
  unfold as_completed. induction futures as [|x l IH]; [done|].
  cbn -[Nat.modulo]. rewrite Nat.Div0.mod_0_l. cbn. by rewrite IH.
Qed.

(** Every order of completion is the order of some schedule. *)
Lemma every_order_is_scheduled futures done :
  done ≡ₚ futures -> exists picks, as_completed picks futures = done.
Proof.
  revert futures. induction done as [|x done IH]; intros futures Hp.
  - apply Permutation_nil_l in Hp. subst. by exists [].
  - assert (x ∈ futures) as Hin by (rewrite <- Hp; left).
    apply list_elem_of_lookup in Hin as [k Hk].
    assert (done ≡ₚ delete k futures) as Hrest.
    { apply (Permutation_cons_inv (a := x)).
      by rewrite Hp, <- (delete_Permutation futures k x Hk). }
    destruct (IH _ Hrest) as [picks Hpicks].
    exists (k :: picks). unfold as_completed in *.
    pose proof (lookup_lt_Some _ _ _ Hk) as Hlt.
    destruct (length futures) as [|n] eqn:Hlen; [lia|]. cbn -[Nat.modulo].
    rewrite Hlen, Nat.mod_small, Hk by lia. f_equal.
    rewrite <- Hpicks. f_equal. rewrite length_delete by eauto. lia.
Qed.

End Completion.

Lemma run_pool_length run done (u : gmap string nat) :
  length (run_pool run done u).1 = length done.
Proof.
  revert u. induction done as [|c rest IH]; intros u; simpl; [done|].
  destruct (run (content c) u) as [o u1].
  specialize (IH u1). destruct (run_pool run rest u1) as [os u2].
  simpl in *. by rewrite IH.
Qed.

Lemma run_pool_returns run done (u : gmap string nat) :
  never_raises run ->
  exists texts u', run_pool run done u = (Returned <$> texts, u')
                   /\ length texts = length done.
Proof.
  intros Hrun. revert u. induction done as [|c rest IH]; intros u; csimpl.
  - by exists [], u.
  - destruct (Hrun (content c) u) as (s & u1 & ->).
    destruct (IH u1) as (texts & u2 & -> & Hlen).
    exists (s :: texts), u2. csimpl. by rewrite Hlen.
Qed.

Lemma collect_light_length total i done acc w ss :
  collect_light total i done acc = (w, Returned ss) ->
  length ss = length acc + length done.
Proof.
  revert i acc w. induction done as [|[s|e] rest IH]; intros i acc w; simpl.
  - intros [= _ ->]. lia.
  - destruct (fraction i total) as [f|e]; [|discriminate].
    destruct (collect_light total (S i) rest (acc ++ [s])) as [w' r] eqn:Hrec.
    intros [= _ ->]. apply IH in Hrec. rewrite Hrec, length_app. simpl. lia.
  - discriminate.
Qed.

Lemma collect_light_returns total i texts acc :
  0 < total ->
  exists w, collect_light total i (Returned <$> texts) acc
            = (w, Returned (acc ++ texts)).
Proof.
  intros Htot. revert i acc. induction texts as [|s rest IH]; intros i acc; csimpl.
  - exists []. by rewrite app_nil_r.
  - unfold fraction. destruct total as [|t]; [lia|].
    destruct (IH (S i) (acc ++ [s])) as [w ->]. rewrite <- app_assoc. eauto.
Qed.

Lemma collect_escalated_length done acc ss :
  collect_escalated done acc = Returned ss ->
  length ss = length acc + length done.
Proof.
  revert acc. induction done as [|[s|e] rest IH]; intros acc; simpl.
  - intros [= ->]. lia.
  - intros H. apply IH in H. rewrite H, length_app. simpl. lia.
  - discriminate.
Qed.

Lemma collect_escalated_returns texts acc :
  collect_escalated (Returned <$> texts) acc = Returned (acc ++ texts).
Proof.
  revert acc. induction texts as [|s rest IH]; intros acc; csimpl.
  - by rewrite app_nil_r.
  - by rewrite IH, <- app_assoc.
Qed.

Lemma gate_loop_length reg total i pairs failed passed w failed' passed' :
  gate_loop reg total i pairs failed passed = (w, Returned (failed', passed')) ->
  length failed' + length passed'
  = length failed + length passed + length pairs.
Proof.
  revert i failed passed w.
  induction pairs as [|[c s] rest IH]; intros i failed passed w; simpl.
  - intros [= _ -> ->]. lia.
  - destruct (run_accuracy_check reg (content c) s) as [b|e]; [|discriminate].
    destruct (fraction i total) as [f|e]; [|discriminate].
    destruct (gate_loop reg total (S i) rest _ _) as [w' r] eqn:Hrec.
    intros [= _ ->]. apply IH in Hrec. rewrite Hrec.
    destruct b; rewrite length_app; simpl; lia.
Qed.

Lemma run_accuracy_check_accepts reg c s :
  run_accuracy_check reg (content c) s = Returned (accepts reg (c, s)).
Proof.
  unfold accepts. simpl.
  by destruct (ModelsFacts.run_accuracy_check_returns reg (content c) s) as [b ->].
Qed.

(** The gate sorts the pairs by the verifier's answer, in order. *)
Lemma gate_loop_returns reg total i pairs failed passed :
  0 < total ->
  exists w,
    gate_loop reg total i pairs failed passed
    = (w, Returned (failed ++ (List.filter (fun p => negb (accepts reg p)) pairs).*1,
                    passed ++ (List.filter (accepts reg) pairs).*2)).
Proof.
  intros Htot. revert i failed passed.
  induction pairs as [|[c s] rest IH]; intros i failed passed; simpl.
  - exists []. by rewrite !app_nil_r.
  - rewrite run_accuracy_check_accepts.
    unfold fraction. destruct total as [|t]; [lia|].
    destruct (accepts reg (c, s)); simpl.
    + destruct (IH (S i) failed (passed ++ [s])) as [w ->].
      rewrite <- app_assoc. eauto.
    + destruct (IH (S i) (failed ++ [c]) passed) as [w ->].
      rewrite <- app_assoc. eauto.
Qed.

End PoolFacts.

(** ** The nodes and the graph *)

Module OrchestratorFacts.

Import Models Scheduler Orchestrator Scenario PoolFacts.
Local Open Scope list_scope.

Section NodeFacts.

Variable reg : registry.
Variable triage_ext : string -> string -> string -> list Chunk.
Variable carbon_router_ext : string -> outcome (string * CarbonReport).

Local Abbreviation units_of := (Orchestrator.units_of triage_ext).
Local Abbreviation run_invariant := (Orchestrator.run_invariant triage_ext).

Lemma light_never_raises : never_raises (run_light_summarizer reg).
Proof. intros t u. apply ModelsFacts.run_light_summarizer_returns. Qed.

Lemma medium_never_raises : never_raises (run_medium_summarizer reg).
Proof. intros t u. apply ModelsFacts.run_medium_summarizer_returns. Qed.

(** Node 3 returns the workers' texts in the order of completion. *)
Lemma map_summarize_chunks_returns picks st :
  0 < total_chunks st ->
  exists w texts u,
    run_pool (run_light_summarizer reg) (as_completed picks (chunks st))
      (model_usage_chars st) = (Returned <$> texts, u)
    /\ length texts = length (chunks st)
    /\ map_summarize_chunks reg picks st
       = (25%Q :: w, Returned (set_summaries texts (set_model_usage_chars u st))).
Proof.
  intros Htot. unfold map_summarize_chunks.
  destruct (run_pool_returns _ (as_completed picks (chunks st))
              (model_usage_chars st) light_never_raises)
    as (texts & u & Hpool & Hlen).
  rewrite Hpool.
  destruct (collect_light_returns (total_chunks st) 0 texts [] Htot) as [w Hw].
  rewrite Hw. exists w, texts, u.
  by rewrite Hlen, as_completed_length.
Qed.

Lemma map_summarize_chunks_length picks st w st' :
  map_summarize_chunks reg picks st = (w, Returned st') ->
  chunks st' = chunks st
  /\ length (summaries st') = length (chunks st).
Proof.
  unfold map_summarize_chunks.
  pose proof (run_pool_length (run_light_summarizer reg)
                (as_completed picks (chunks st)) (model_usage_chars st)) as Hlen.
  destruct (run_pool _ _ _) as [results u].
  destruct (collect_light _ _ _ _) as [w' [ss|e]] eqn:Hc; intros [= _ <-]; simpl.
  split; [done|]. apply collect_light_length in Hc.
  simpl in *. by rewrite Hc, Hlen, as_completed_length.
Qed.

(** Node 4 keeps the summaries the verifier accepts and lists the chunks
    of those it rejects. *)
Lemma check_accuracy_returns st :
  0 < total_chunks st ->
  exists w,
    check_accuracy reg st
    = (55%Q :: w,
       Returned
         (let pairs := zip (chunks st) (summaries st) in
          let failed := (List.filter (fun p => negb (accepts reg p)) pairs).*1 in
          let passed := (List.filter (accepts reg) pairs).*2 in
          set_failed_chunks failed
            (set_summaries passed (set_chunks_escalated (length failed) st)))).
Proof.
  intros Htot. unfold check_accuracy.
  destruct (gate_loop_returns reg (total_chunks st) 0
              (zip (chunks st) (summaries st)) [] [] Htot) as [w ->].
  by exists w.
Qed.

Lemma check_accuracy_length st w st' :
  check_accuracy reg st = (w, Returned st') ->
  chunks st' = chunks st
  /\ length (summaries st') + length (failed_chunks st')
     = length (chunks st) `min` length (summaries st).
Proof.
  unfold check_accuracy.
  destruct (gate_loop _ _ _ _ _ _) as [w' [[failed passed]|e]] eqn:Hg;
    intros [= _ <-]; simpl.
  split; [done|]. apply gate_loop_length in Hg.
  rewrite length_zip in Hg. simpl in Hg. lia.
Qed.

(** Node 5 appends the workers' texts, in the order of completion, to the
    summaries that passed. *)
Lemma map_escalate_chunks_returns picks st :
  exists texts u,
    run_pool (run_medium_summarizer reg) (as_completed picks (failed_chunks st))
      (model_usage_chars st) = (Returned <$> texts, u)
    /\ length texts = length (failed_chunks st)
    /\ map_escalate_chunks reg picks st
       = ([75%Q],
          Returned (set_failed_chunks []
                      (set_summaries (summaries st ++ texts)
                         (set_model_usage_chars u st)))).
Proof.
  unfold map_escalate_chunks.
  destruct (run_pool_returns _ (as_completed picks (failed_chunks st))
              (model_usage_chars st) medium_never_raises)
    as (texts & u & Hpool & Hlen).
  rewrite Hpool, collect_escalated_returns. exists texts, u.
  by rewrite Hlen, as_completed_length.
Qed.

Lemma map_escalate_chunks_length picks st w st' :
  map_escalate_chunks reg picks st = (w, Returned st') ->
  chunks st' = chunks st
  /\ length (summaries st')
     = length (summaries st) + length (failed_chunks st).
Proof.
  destruct (map_escalate_chunks_returns picks st) as (texts & u & _ & Hlen & ->).
  intros [= _ <-]. simpl. by rewrite length_app, Hlen.
Qed.

Lemma reduce_compile_summary_returns st :
  exists s u,
    run_large_model_compile reg
      (String.concat (String "010" (String "010" EmptyString)) (summaries st))
      (model_usage_chars st) = (Returned s, u)
    /\ reduce_compile_summary reg st
       = ([85%Q], Returned (set_final_summary s (set_model_usage_chars u st))).
Proof.
  unfold reduce_compile_summary.
  destruct (ModelsFacts.run_large_model_compile_returns reg
              (String.concat (String "010" (String "010" EmptyString)) (summaries st))
              (model_usage_chars st)) as (s & u & ->).
  by exists s, u.
Qed.

(** What a step that returns does to the configuration. *)
Lemma step_returned c c' log :
  step reg triage_ext carbon_router_ext c = (Returned c', log) ->
  exists w,
    run_node reg triage_ext carbon_router_ext (at_node c)
      (hd [] (schedules c)) (state c) = (w, Returned (state c'))
    /\ at_node c' = next_node (at_node c) (state c')
    /\ visited c' = visited c ++ [at_node c]
    /\ progress_log c' = progress_log c ++ w.
Proof.
  unfold step. destruct (run_node _ _ _ _ _ _) as [w [st|e]]; intros [= <- _].
  by exists w.
Qed.

(** A property that holds at first and that the steps keep holds all
    along the run. *)
Lemma trace_Forall (P : config -> Prop) fuel c :
  P c ->
  (forall c c' log,
      P c -> step reg triage_ext carbon_router_ext c = (Returned c', log) -> P c') ->
  Forall P (trace reg triage_ext carbon_router_ext fuel c).
Proof.
  intros Hc Hstep. revert c Hc. induction fuel as [|fuel IH]; intros c Hc; simpl.
  - constructor; [done|]. destruct (at_node c); constructor.
  - constructor; [done|].
    destruct (step reg triage_ext carbon_router_ext c) as [[c'|e] log] eqn:Hs.
    + destruct (at_node c); try constructor; eapply IH, Hstep; eauto.
    + destruct (at_node c); constructor.
Qed.

(** What the nodes leave alone: the path and type of the file always, the
    chunks and their count everywhere but in triage. *)
Lemma run_node_frame n picks st w st' :
  run_node reg triage_ext carbon_router_ext n picks st = (w, Returned st') ->
  file_path st' = file_path st
  /\ file_type st' = file_type st
  /\ job_mode st' = job_mode st
  /\ (n <> n_triage_document ->
      chunks st' = chunks st /\ total_chunks st' = total_chunks st).
Proof.
  destruct n; simpl;
    unfold start_job, triage_document, map_summarize_chunks, check_accuracy,
      map_escalate_chunks, reduce_compile_summary, store_for_rag,
      calculate_carbon, run_carbon_router;
    intros H; repeat case_match; simplify_eq/=; done.
Qed.

(** The node before [n_check_accuracy] is one of the two map nodes. *)
Lemma next_node_check n st :
  next_node n st = n_check_accuracy <->
  n = n_map_summarize_chunks \/ n = n_map_escalate_chunks.
Proof.
  split.
  - destruct n; simpl; repeat case_match; intros; simplify_eq; auto.
  - by intros [-> | ->].
Qed.

Lemma run_invariant_initial st0 schedules :
  run_invariant st0 (initial_config st0 schedules).
Proof. unfold run_invariant. simpl. repeat split; done. Qed.

Lemma run_invariant_step st0 c c' log :
  run_invariant st0 c ->
  step reg triage_ext carbon_router_ext c = (Returned c', log) ->
  run_invariant st0 c'.
Proof.
  intros (Hpath & Htype & Hmode & Hfirst & Hlast & Hunits & Hcheck & Hesc) Hstep.
  apply step_returned in Hstep as (w & Hnode & Hat & Hvis & _).
  pose proof (run_node_frame _ _ _ _ _ Hnode) as (Hp & Ht & Hm & Hframe).
  unfold run_invariant. rewrite Hp, Ht, Hm, Hvis, Hat.
  split; [done|]. split; [done|]. split; [done|].
  split; [by intros [_ [=]]%app_eq_nil|].
  split; [intros n; rewrite last_snoc; by intros [= <-]|].
  destruct (at_node c) eqn:Hn; simpl in *.
  - (* start_job *)
    repeat case_match; simpl; repeat split; intros; simplify_eq.
  - (* triage_document *)
    unfold triage_document in Hnode. rewrite Hpath, Htype in Hnode.
    fold (units_of st0) in Hnode.
    destruct (units_of st0) as [|u us] eqn:Hu; [discriminate|].
    injection Hnode as _ <-. simpl. repeat split; intros; simplify_eq; done.
  - (* map_summarize_chunks *)
    destruct (Hframe ltac:(done)) as [Hc Htot].
    apply map_summarize_chunks_length in Hnode as [_ Hlen].
    rewrite Hc, Htot. repeat split; intros; simplify_eq; try apply Hunits; done.
  - (* check_accuracy *)
    destruct (Hframe ltac:(done)) as [Hc Htot].
    apply check_accuracy_length in Hnode as [_ Hlen].
    rewrite Hc, Htot. rewrite (Hcheck eq_refl), Nat.min_id in Hlen.
    repeat case_match; simpl;
      repeat split; intros; simplify_eq; try apply Hunits; done.
  - (* map_escalate_chunks *)
    destruct (Hframe ltac:(done)) as [Hc Htot].
    apply map_escalate_chunks_length in Hnode as [_ Hlen].
    rewrite Hc, Htot. rewrite Hlen.
    repeat split; intros; simplify_eq; try apply Hunits; auto.
  - destruct (Hframe ltac:(done)) as [Hc Htot]. rewrite Hc, Htot.
    repeat split; intros; simplify_eq; try apply Hunits; done.
  - destruct (Hframe ltac:(done)) as [Hc Htot]. rewrite Hc, Htot.
    repeat split; intros; simplify_eq; try apply Hunits; done.
  - repeat split; intros; simplify_eq.
  - repeat split; intros; simplify_eq.
  - repeat split; intros; simplify_eq.
Qed.

(** Unfolding a run by one node. *)
Lemma run_END fuel c :
  at_node c = n_END -> run reg triage_ext carbon_router_ext fuel c = Finished c.
Proof. intros H. destruct fuel; simpl; by rewrite H. Qed.


Lemma run_step fuel c c' log :
  at_node c <> n_END ->
  step reg triage_ext carbon_router_ext c = (Returned c', log) ->
  run reg triage_ext carbon_router_ext (S fuel) c
  = run reg triage_ext carbon_router_ext fuel c'.
Proof. intros Hn Hs. simpl. rewrite Hs. by destruct (at_node c). Qed.

Lemma trace_step fuel c c' log :
  at_node c <> n_END ->
  step reg triage_ext carbon_router_ext c = (Returned c', log) ->
  trace reg triage_ext carbon_router_ext (S fuel) c
  = c :: trace reg triage_ext carbon_router_ext fuel c'.
Proof. intros Hn Hs. simpl. rewrite Hs. by destruct (at_node c). Qed.



Lemma route_start_job_mode st st' :
  job_mode st' = job_mode st -> route_start_job st' = route_start_job st.
Proof. unfold route_start_job. by intros ->. Qed.





End NodeFacts.

(** C6. Along every run, under any verifier and any schedules of the
    worker pools, whenever the gate is about to run (that is, right after
    the first map pass and right after every escalation pass) the chunks are
    the units triage produced and the summaries are as many as the units. *)
Theorem summaries_length_after_every_map_pass
    reg triage_ext carbon_router_ext st schedules fuel :
  Forall
    (fun c =>
       (at_node c = n_check_accuracy <->
          last (visited c) = Some n_map_summarize_chunks
          \/ last (visited c) = Some n_map_escalate_chunks)
       /\ (at_node c = n_check_accuracy ->
           chunks (state c) = triage_ext (file_path st) (file_type st) TRIAGE_STRATEGY
           /\ length (summaries (state c)) = length (chunks (state c))))
    (trace reg triage_ext carbon_router_ext fuel (initial_config st schedules)).
Proof.
  eapply Forall_impl.
  - apply (trace_Forall reg triage_ext carbon_router_ext
             (run_invariant triage_ext st)).
    + apply run_invariant_initial.
    + intros c c' log. apply run_invariant_step.
  - intros c (_ & _ & _ & Hfirst & Hlast & Hunits & Hcheck & _). split.
    + split.
      * intros Hat. destruct (last (visited c)) as [n|] eqn:Hl.
        -- specialize (Hlast n eq_refl). rewrite Hat in Hlast.
           symmetry in Hlast. apply next_node_check in Hlast as [-> | ->]; auto.
        -- apply last_None in Hl. apply Hfirst in Hl. congruence.
      * intros [Hl | Hl]; by rewrite (Hlast _ Hl).
    + intros Hat. split; [|by apply Hcheck].
      rewrite Hat in Hunits. by apply Hunits.
Qed.

(** The invariant is met three times in this run of five units, in which
    the verifier rejects units 1 and 3 at every pass: five summaries after
    the map pass and after each of the two escalation passes, and three in
    between. *)
Example summaries_length_along_a_run :
  (fun c => (at_node c, length (summaries (state c))))
    <$> trace rejects_units_1_3 (triage_gives five_units) no_router 7
          (initial_config new_job [[1]; [1]; []])
  = [ (n_start_job, 0); (n_triage_document, 0); (n_map_summarize_chunks, 0);
      (n_check_accuracy, 5); (n_map_escalate_chunks, 3);
      (n_check_accuracy, 5); (n_map_escalate_chunks, 3);
      (n_check_accuracy, 5) ].
Proof. vm_compute. reflexivity. Qed.

(** C1, on the code. [map_summarize_chunks] appends each result when its
    future completes: with two units of which the second finishes first,
    the summary at index 0 is that of unit 1 and the summary at index 1 is
    that of unit 0. *)
Theorem map_summarize_follows_completion_order :
  let st := set_chunks two_units 2 new_job in
  let light c := (run_light_summarizer always_accept (content c) zero_usage).1 in
  as_completed [1] two_units = [unit_of 1 "b"; unit_of 0 "a"]
  /\ (exists w st',
        map_summarize_chunks always_accept [1] st = (w, Returned st')
        /\ summaries st' = ["L:b"; "L:a"]
        /\ Returned <$> summaries st' !! 0 = light <$> chunks st' !! 1
        /\ Returned <$> summaries st' !! 1 = light <$> chunks st' !! 0
        /\ Returned <$> summaries st' !! 0 <> light <$> chunks st' !! 0).
Proof.
  split; [reflexivity|]. eexists _, _. split; [vm_compute; reflexivity|].
  repeat split; try reflexivity. vm_compute. discriminate.
Qed.

(** When the futures complete in the order of submission the summaries
    are those of the units, index by index. *)
Example map_summarize_in_submission_order :
  exists w st',
    map_summarize_chunks always_accept [] (set_chunks two_units 2 new_job)
    = (w, Returned st')
    /\ summaries st' = ["L:a"; "L:b"].
Proof. eexists _, _. split; [vm_compute; reflexivity|reflexivity]. Qed.

(** C3, on the code. One unit whose light summary the gate rejects and
    whose medium summary it accepts: the escalation node writes 75 and the
    gate, run again, writes 55. *)
Theorem progress_drops_when_gate_runs_again :
  job_progress rejects_light (triage_gives [unit_of 0 "a"]) no_router 9 new_job []
  = Some [5; 5; 15; 25; 55; 55; 70; 75; 55; 70; 85; 100; 100]%Q
  /\ nondecreasing [5; 5; 15; 25; 55; 55; 70; 75; 55; 70; 85; 100; 100]%Q = false.
Proof. split; vm_compute; reflexivity. Qed.

(** Without escalation the progress never decreases. *)
Example progress_without_escalation :
  exists log,
    job_progress always_accept (triage_gives two_units) no_router 7 new_job [[1]]
    = Some log
    /\ nondecreasing log = true.
Proof. eexists. split; vm_compute; reflexivity. Qed.

(** C7. When the verifier is down for every pair the gate evaluates (its
    tokenizer or its model is missing, or the evaluation raises), the
    accuracy check answers true on each of them, so the gate keeps every
    summary, lists no failed chunk and the graph goes on to compile. *)
Theorem verifier_down_passes_every_unit reg st :
  total_chunks st = length (chunks st) ->
  (forall c s, (c, s) ∈ zip (chunks st) (summaries st) ->
               verifier_down reg (content c) s) ->
  (forall c s, (c, s) ∈ zip (chunks st) (summaries st) ->
               run_accuracy_check reg (content c) s = Returned true)
  /\ exists w st',
       check_accuracy reg st = (w, Returned st')
       /\ failed_chunks st' = []
       /\ chunks_escalated st' = 0
       /\ summaries st' = (zip (chunks st) (summaries st)).*2
       /\ should_rerun st' = "compile"%string
       /\ next_node n_check_accuracy st' = n_reduce_compile_summary.
Proof.
  intros Htot Hdown.
  assert (forall c s, (c, s) ∈ zip (chunks st) (summaries st) ->
                      run_accuracy_check reg (content c) s = Returned true) as Hok.
  { intros c s Hin. by apply ModelsFacts.run_accuracy_check_fail_open, Hdown. }
  split; [exact Hok|].
  assert (forall pairs : list (Chunk * string),
             (forall p, p ∈ pairs -> accepts reg p = true) ->
             List.filter (fun p => negb (accepts reg p)) pairs = []
             /\ List.filter (accepts reg) pairs = pairs) as Hfilter.
  { induction pairs as [|p rest IH]; intros Hall; simpl; [done|].
    rewrite (Hall p) by left. simpl.
    destruct IH as [-> ->]; [|done]. intros q Hq. apply Hall. by right. }
  destruct (Hfilter (zip (chunks st) (summaries st))) as [Hrej Hacc].
  { intros [c s] Hin. unfold accepts. simpl. by rewrite (Hok c s Hin). }
  destruct (decide (total_chunks st = 0)) as [Hz|Hnz].
  - assert (chunks st = []) as Hnil
      by (apply length_zero_iff_nil; by rewrite <- Htot).
    unfold check_accuracy. rewrite Hnil. simpl. eexists _, _. by repeat split.
  - destruct (check_accuracy_returns reg st ltac:(lia)) as [w ->].
    eexists _, _. split; [done|]. cbv zeta. rewrite Hrej, Hacc. by repeat split.
Qed.

(** The theorem on two registries: one whose checker failed to load and
    one whose classifier raises; in both the gate passes the two units. *)
Lemma verifier_down_passes_every_unit_witness :
  (exists w st',
      check_accuracy checker_not_loaded two_summarized = (w, Returned st')
      /\ failed_chunks st' = [] /\ summaries st' = ["L:a"; "L:b"]%string)
  /\ (exists w st',
        check_accuracy checker_raises two_summarized = (w, Returned st')
        /\ failed_chunks st' = [] /\ summaries st' = ["L:a"; "L:b"]%string).
Proof.
  split.
  - destruct (verifier_down_passes_every_unit checker_not_loaded two_summarized)
      as (_ & w & st' & H & Hf & _ & Hs & _).
    + reflexivity.
    + intros c s _. right. left. reflexivity.
    + exists w, st'. by rewrite Hs.
  - destruct (verifier_down_passes_every_unit checker_raises two_summarized)
      as (_ & w & st' & H & Hf & _ & Hs & _).
    + reflexivity.
    + intros c s _. right. right.
      exists tokenizer_ok, (Classifier (fun _ => Raised "out of memory")),
        "out of memory"%string.
      repeat split; reflexivity.
    + exists w, st'. by rewrite Hs.
Defined.

(** C10, as the code has it. With no large-tier client in the registry
    the final compile is the medium-tier summarizer's call on the joined
    summaries: it never raises, returns what that call returns and updates
    the counters as that call does, and node 6 stores that text as the
    final summary. The text is a failure sentinel when the medium tier
    fails in turn: "Error: Medium summarizer not loaded." when its client
    is missing and "Summary generation failed." when its call raises, the
    counters being unchanged in both cases. When the call answers, the text
    is the model's answer and the medium counter grows by the length of
    the text submitted. *)
Theorem compile_falls_back_to_medium reg st :
  get reg "summarizer_large" = None ->
  let joined :=
    String.concat (String "010" (String "010" EmptyString)) (summaries st) in
  (forall text (u : gmap string nat),
      run_large_model_compile reg text u = run_medium_summarizer reg text u)
  /\ (exists s u,
        run_medium_summarizer reg joined (model_usage_chars st) = (Returned s, u)
        /\ reduce_compile_summary reg st
           = ([85%Q], Returned (set_final_summary s (set_model_usage_chars u st))))
  /\ (get reg "ollama_client" = None ->
      forall text (u : gmap string nat),
        run_large_model_compile reg text u = (Returned medium_not_loaded, u))
  /\ (forall chat text (u : gmap string nat) e,
        get reg "ollama_client" = Some (OllamaClient chat) ->
        chat (medium_prompt text) = Raised e ->
        run_large_model_compile reg text u = (Returned generation_failed, u))
  /\ (forall chat text (u : gmap string nat) response message answer old,
        get reg "ollama_client" = Some (OllamaClient chat) ->
        chat (medium_prompt text) = Returned response ->
        response !! "message" = Some message ->
        message !! "content" = Some answer ->
        u !! "medium" = Some old ->
        run_large_model_compile reg text u
        = (Returned answer, <["medium" := old + String.length text]> u)).
Proof.
  intros Hnone joined.
  assert (forall text (u : gmap string nat),
             run_large_model_compile reg text u = run_medium_summarizer reg text u)
    as Hsame by (intros text u; unfold run_large_model_compile; by rewrite Hnone).
  split; [exact Hsame|]. split; [|split; [|split]].
  - destruct (reduce_compile_summary_returns reg st) as (s & u & Hrun & Hnode).
    fold joined in Hrun. rewrite Hsame in Hrun. by exists s, u.
  - intros Hmedium text u. rewrite Hsame. unfold run_medium_summarizer.
    by rewrite Hmedium.
  - intros chat text u e Hmedium Hchat. rewrite Hsame.
    unfold run_medium_summarizer. rewrite Hmedium. simpl. by rewrite Hchat.
  - intros chat text u response message answer old Hmedium Hchat Hm Hc Hu.
    rewrite Hsame. unfold run_medium_summarizer. rewrite Hmedium. simpl.
    rewrite Hchat, (ModelsFacts.add_usage_Some _ _ _ _ Hu).
    unfold getitem. by rewrite Hm, Hc.
Qed.

(** The theorem on a registry without large model: the final summary of
    the two light summaries is the medium tier's answer to its own prompt
    around them. *)
Lemma compile_falls_back_to_medium_witness :
  exists u,
    reduce_compile_summary always_accept two_summarized
    = ([85%Q],
       Returned (set_final_summary
                   ("M:" ++ medium_prompt
                              ("L:a" ++ String "010" (String "010" "L:b")))%string
                   (set_model_usage_chars u two_summarized))).
Proof.
  destruct (compile_falls_back_to_medium always_accept two_summarized eq_refl)
    as (_ & (s & u & Hrun & Hnode) & _).
  exists u. rewrite Hnode. injection Hrun as <- _. reflexivity.
Defined.

(** C10 as stated fails: with no large-tier client and a medium tier that
    is missing, or whose call raises, the compile step returns a failure
    sentinel, and node 6 stores the sentinel as the final summary. *)
Lemma compile_fallback_returns_sentinel :
  let medium_missing := <["ollama_client" := None]> always_accept in
  let medium_down := install pipe_ok chat_down (classifier (fun _ => false)) in
  let joined := ("L:a" ++ String "010" (String "010" "L:b"))%string in
  get medium_missing "summarizer_large" = None
  /\ get medium_down "summarizer_large" = None
  /\ run_large_model_compile medium_missing joined zero_usage
     = (Returned "Error: Medium summarizer not loaded."%string, zero_usage)
  /\ run_large_model_compile medium_down joined zero_usage
     = (Returned "Summary generation failed."%string, zero_usage)
  /\ (exists st',
        reduce_compile_summary medium_missing two_summarized
        = ([85%Q], Returned st')
        /\ final_summary st' = "Error: Medium summarizer not loaded."%string)
  /\ (exists st',
        reduce_compile_summary medium_down two_summarized
        = ([85%Q], Returned st')
        /\ final_summary st' = "Summary generation failed."%string).
Proof.
  repeat split; try reflexivity;
    (eexists; split; [vm_compute; reflexivity|reflexivity]).
Qed.






Lemma no_rejection_iff_all_accepted reg (pairs : list (Chunk * string)) :
  (List.filter (fun p => negb (accepts reg p)) pairs).*1 = [] <->
  forall p, p ∈ pairs -> accepts reg p = true.
Proof.
  induction pairs as [|p rest IH]; simpl.
  - split; [intros _ q Hq; by apply elem_of_nil in Hq|done].
  - destruct (accepts reg p) eqn:Hp; simpl.
    + rewrite IH. split.
      * intros H q [->|Hq]%elem_of_cons; auto.
      * intros H q Hq. apply H. by right.
    + split; [done|]. intros H. specialize (H p ltac:(left)). congruence.
Qed.

(** C4, as the code has it. Five units of which the verifier rejects
    exactly those of index 1 and 3 at the first gate pass: the gate records
    2 escalated chunks and hands exactly these two units to the escalation
    node, whose pool runs the medium summarizer once on each and appends the
    two results to the three summaries that passed. The second gate pass
    asks the verifier again about every position and lets the graph go on to
    compile exactly when the verifier accepts them all. *)
Theorem scenario_two_of_five_rejected
    reg picks st c0 c1 c2 c3 c4 s0 s1 s2 s3 s4 :
  chunks st = [c0; c1; c2; c3; c4] ->
  summaries st = [s0; s1; s2; s3; s4] ->
  total_chunks st = 5 ->
  accepts reg <$> zip (chunks st) (summaries st) = [true; false; true; false; true] ->
  exists w1 st1 texts u st2 w3 st3,
    check_accuracy reg st = (w1, Returned st1)
    /\ failed_chunks st1 = [c1; c3]
    /\ summaries st1 = [s0; s2; s4]
    /\ chunks_escalated st1 = 2
    /\ next_node n_check_accuracy st1 = n_map_escalate_chunks
    /\ as_completed picks [c1; c3] ≡ₚ [c1; c3]
    /\ run_pool (run_medium_summarizer reg) (as_completed picks [c1; c3])
         (model_usage_chars st1) = (Returned <$> texts, u)
    /\ map_escalate_chunks reg picks st1 = ([75%Q], Returned st2)
    /\ summaries st2 = [s0; s2; s4] ++ texts
    /\ length (summaries st2) = 5
    /\ failed_chunks st2 = []
    /\ next_node n_map_escalate_chunks st2 = n_check_accuracy
    /\ check_accuracy reg st2 = (w3, Returned st3)
    /\ failed_chunks st3
       = (List.filter (fun p => negb (accepts reg p))
            (zip [c0; c1; c2; c3; c4] (summaries st2))).*1
    /\ (next_node n_check_accuracy st3 = n_reduce_compile_summary <->
        forall p, p ∈ zip [c0; c1; c2; c3; c4] (summaries st2) ->
                  accepts reg p = true).
Proof.
  intros Hc Hs Htot Hverdicts.
  destruct (check_accuracy_returns reg st ltac:(lia)) as [w1 H1].
  rewrite Hc, Hs in Hverdicts, H1. cbv zeta in H1. simpl in Hverdicts, H1.
  injection Hverdicts as E0 E1 E2 E3 E4.
  rewrite E0, E1, E2, E3, E4 in H1. simpl in H1.
  set (st1 := set_failed_chunks [c1; c3]
                (set_summaries [s0; s2; s4] (set_chunks_escalated 2 st))) in H1.
  destruct (map_escalate_chunks_returns reg picks st1)
    as (texts & u & Hpool & Hlen & H2).
  set (st2 := set_failed_chunks []
                (set_summaries (summaries st1 ++ texts)
                   (set_model_usage_chars u st1))) in H2.
  assert (chunks st2 = [c0; c1; c2; c3; c4]) as Hc2 by exact Hc.
  destruct (check_accuracy_returns reg st2) as [w3 H3];
    [change (total_chunks st2) with (total_chunks st); lia|].
  cbv zeta in H3. rewrite Hc2 in H3.
  remember ((List.filter (fun p => negb (accepts reg p))
               (zip [c0; c1; c2; c3; c4] (summaries st2))).*1) as F eqn:HF.
  eexists _, st1, texts, u, st2, _, _.
  split; [exact H1|]. repeat (split; [reflexivity|]).
  split; [apply as_completed_Permutation|].
  split; [exact Hpool|]. split; [exact H2|]. split; [reflexivity|].
  split; [change (length ([s0; s2; s4] ++ texts) = 5);
          rewrite length_app, Hlen; reflexivity|].
  split; [reflexivity|]. split; [reflexivity|].
  split; [exact H3|].
  split; [exact HF|].
  rewrite <- no_rejection_iff_all_accepted, <- HF.
  unfold next_node, should_rerun. cbn [failed_chunks set_failed_chunks].
  destruct F; simpl; split; intros; done.
Qed.

(** The theorem on a verifier that rejects the light summaries of units 1
    and 3 and nothing else: the two are escalated, the five summaries are
    the three that passed followed by the two medium ones, and the second
    gate pass, which accepts all it sees, lets the graph go on. *)
Lemma scenario_two_of_five_rejected_witness :
  exists st1 st2 st3,
    (check_accuracy rejects_light_1_3 five_summarized).2 = Returned st1
    /\ failed_chunks st1 = [unit_of 1 "c1"; unit_of 3 "c3"]
    /\ (map_escalate_chunks rejects_light_1_3 [] st1).2 = Returned st2
    /\ length (summaries st2) = 5
    /\ (check_accuracy rejects_light_1_3 st2).2 = Returned st3
    /\ next_node n_check_accuracy st3 = n_reduce_compile_summary.
Proof.
  destruct (scenario_two_of_five_rejected rejects_light_1_3 [] five_summarized
              (unit_of 0 "c0") (unit_of 1 "c1") (unit_of 2 "c2")
              (unit_of 3 "c3") (unit_of 4 "c4")
              "L:c0" "L:c1" "L:c2" "L:c3" "L:c4"
              eq_refl eq_refl eq_refl eq_refl)
    as (w1 & st1 & texts & u & st2 & w3 & st3 & H1 & Hf & _ & _ & _ & _ & _
        & H2 & _ & Hl & _ & _ & H3 & _ & Hnext).
  exists st1, st2, st3. rewrite H1, H2, H3.
  split; [reflexivity|]. split; [exact Hf|]. split; [reflexivity|].
  split; [exact Hl|]. split; [reflexivity|].
  apply Hnext.
  vm_compute in H1. injection H1 as _ <-.
  vm_compute in H2. injection H2 as <-.
  intros p Hp. simpl in Hp.
  repeat (apply elem_of_cons in Hp; destruct Hp as [-> | Hp];
          [vm_compute; reflexivity|]).
  by apply elem_of_nil in Hp.
Defined.

(** C4 as stated fails. With a verifier that rejects units 1 and 3
    whatever their summary, the second gate pass rejects them again and the
    graph re-enters the escalation node with the same two units. With a
    verifier that rejects only their light summaries, the run ends, after
    one escalation of the two units, with an escalated count of 0 in the
    final state and in the cost report. *)
Lemma second_gate_pass_is_not_forced :
  let triage := triage_gives five_units in
  let init := initial_config new_job [] in
  at_node <$> trace rejects_units_1_3 triage no_router 6 init
  = [ n_start_job; n_triage_document; n_map_summarize_chunks;
      n_check_accuracy; n_map_escalate_chunks; n_check_accuracy;
      n_map_escalate_chunks ]
  /\ escalations (trace rejects_units_1_3 triage no_router 6 init)
     = [ [unit_of 1 "c1"; unit_of 3 "c3"]; [unit_of 1 "c1"; unit_of 3 "c3"] ]
  /\ escalations (trace rejects_light_1_3 triage no_router 9 init)
     = [ [unit_of 1 "c1"; unit_of 3 "c3"] ]
  /\ exists c,
       run rejects_light_1_3 triage no_router 9 init = Finished c
       /\ chunks_escalated (state c) = 0
       /\ report_chunks_escalated <$> carbon_report (state c) = Some 0.
Proof.
  repeat split; try (vm_compute; reflexivity).
  eexists. split; [vm_compute; reflexivity|]. split; reflexivity.
Qed.

End OrchestratorFacts.

(** ** More on the model runners *)

Module RunnerFacts.

Import Models Scenario.

(** The retry loop, from any attempt on: rate-limit errors are retried
    until an attempt returns. *)
Lemma large_loop_succeeds create todo attempt k text s n (u : gmap string nat) :
  k < todo ->
  (forall j, j < k ->
     exists e, create (attempt + j) (large_prompt text) = Raised e
               /\ contains "429" e = true) ->
  create (attempt + k) (large_prompt text) = Returned s ->
  u !! "large" = Some n ->
  large_loop (GroqClient create) todo attempt text u
  = (Returned s, <["large" := n + String.length text]> u).
Proof.
  revert todo attempt. induction k as [|k IH]; intros todo attempt Hk Hfail Hok Hu.
  - destruct todo as [|todo]; [lia|]. simpl.
    rewrite Nat.add_0_r in Hok. unfold large_attempt.
    by rewrite Hok, (ModelsFacts.add_usage_Some _ _ _ _ Hu).
  - destruct todo as [|todo]; [lia|]. simpl. unfold large_attempt.
    destruct (Hfail 0 ltac:(lia)) as (e & He & H429).
    rewrite Nat.add_0_r in He. rewrite He, H429.
    apply IH; [lia| |by rewrite Nat.add_succ_comm|done].
    intros j Hj. rewrite Nat.add_succ_comm. apply Hfail. lia.
Qed.

Lemma large_loop_rate_limited create todo attempt text (u : gmap string nat) :
  (forall j, j < todo ->
     exists e, create (attempt + j) (large_prompt text) = Raised e
               /\ contains "429" e = true) ->
  large_loop (GroqClient create) todo attempt text u
  = (Returned "Summary failed due to Rate Limits.", u).
Proof.
  revert attempt. induction todo as [|todo IH]; intros attempt Hfail; simpl; [done|].
  unfold large_attempt.
  destruct (Hfail 0 ltac:(lia)) as (e & He & H429).
  rewrite Nat.add_0_r in He. rewrite He, H429. apply IH.
  intros j Hj. rewrite Nat.add_succ_comm. apply Hfail. lia.
Qed.

Lemma large_loop_other_error create todo attempt k text e (u : gmap string nat) :
  k < todo ->
  (forall j, j < k ->
     exists e', create (attempt + j) (large_prompt text) = Raised e'
                /\ contains "429" e' = true) ->
  create (attempt + k) (large_prompt text) = Raised e ->
  contains "429" e = false ->
  large_loop (GroqClient create) todo attempt text u
  = (Returned ("Final summary generation failed: " ++ e), u).
Proof.
  revert todo attempt. induction k as [|k IH]; intros todo attempt Hk Hfail Herr Hno.
  - destruct todo as [|todo]; [lia|]. simpl.
    rewrite Nat.add_0_r in Herr. unfold large_attempt. by rewrite Herr, Hno.
  - destruct todo as [|todo]; [lia|]. simpl. unfold large_attempt.
    destruct (Hfail 0 ltac:(lia)) as (e' & He & H429).
    rewrite Nat.add_0_r in He. rewrite He, H429.
    apply IH; [lia| |by rewrite Nat.add_succ_comm|done].
    intros j Hj. rewrite Nat.add_succ_comm. apply Hfail. lia.
Qed.

Lemma large_loop_ext create create' todo attempt text (u : gmap string nat) :
  (forall j, j < todo ->
     create (attempt + j) (large_prompt text) = create' (attempt + j) (large_prompt text)) ->
  large_loop (GroqClient create) todo attempt text u
  = large_loop (GroqClient create') todo attempt text u.
Proof.
  revert attempt u. induction todo as [|todo IH]; intros attempt u Hsame; simpl; [done|].
  unfold large_attempt.
  pose proof (Hsame 0 ltac:(lia)) as H0. rewrite Nat.add_0_r in H0. rewrite <- H0.
  assert (forall u', large_loop (GroqClient create) todo (S attempt) text u'
                     = large_loop (GroqClient create') todo (S attempt) text u') as Hrec.
  { intros u'. apply IH. intros j Hj. rewrite Nat.add_succ_comm. apply Hsame. lia. }
  destruct (create attempt (large_prompt text)) as [s|e].
  - destruct (add_usage "large" (String.length text) u) as [u'|e']; [done|].
    destruct (contains "429" e'); [apply Hrec|done].
  - destruct (contains "429" e); [apply Hrec|done].
Qed.

(** X1. With a large-tier client, the final compile returns the text of the
    first attempt that succeeds, provided it is one of the first three and
    every attempt before it failed with a rate-limit error (one whose text
    contains "429"); the large-tier counter then grows once, by the length
    of the joined summaries. *)
Theorem compile_returns_first_successful_attempt
    reg create k text s n (u : gmap string nat) :
  get reg "summarizer_large" = Some (GroqClient create) ->
  k < 3 ->
  (forall j, j < k ->
     exists e, create j (large_prompt text) = Raised e /\ contains "429" e = true) ->
  create k (large_prompt text) = Returned s ->
  u !! "large" = Some n ->
  run_large_model_compile reg text u
  = (Returned s, <["large" := n + String.length text]> u).
Proof.
  intros Hreg Hk Hfail Hok Hu. unfold run_large_model_compile. rewrite Hreg.
  by apply (large_loop_succeeds create max_retries 0 k).
Qed.

(** Rate limited twice, then an answer: the answer is the final summary
    and the counter of the large tier goes from 0 to 7. *)
Lemma compile_returns_first_successful_attempt_witness :
  run_large_model_compile (MoreScenario.with_large MoreScenario.groq_third_time)
    "L:a L:b" zero_usage
  = (Returned "executive summary", <["large" := 0 + 7]> zero_usage).
Proof.
  eapply (compile_returns_first_successful_attempt _ _ 2); try reflexivity.
  - lia.
  - intros j Hj. exists "Error code: 429 - rate limit reached".
    destruct j as [|[|j]]; [split; reflexivity..|lia].
Defined.

(** X2. With a large-tier client, the final compile makes at most three
    attempts and never raises: three rate-limit errors give the text
    "Summary failed due to Rate Limits."; the first error of another kind
    ends the attempts at once and gives "Final summary generation failed: "
    followed by the error; in both cases the counters are left as they
    were. What the client would do at a fourth attempt has no influence. *)
Theorem compile_gives_up_after_three_attempts
    reg create text (u : gmap string nat) :
  get reg "summarizer_large" = Some (GroqClient create) ->
  ((forall j, j < 3 ->
      exists e, create j (large_prompt text) = Raised e /\ contains "429" e = true) ->
   run_large_model_compile reg text u
   = (Returned "Summary failed due to Rate Limits.", u))
  /\ (forall k e,
        k < 3 ->
        (forall j, j < k ->
           exists e', create j (large_prompt text) = Raised e'
                      /\ contains "429" e' = true) ->
        create k (large_prompt text) = Raised e ->
        contains "429" e = false ->
        run_large_model_compile reg text u
        = (Returned ("Final summary generation failed: " ++ e), u))
  /\ (forall reg' create',
        get reg' "summarizer_large" = Some (GroqClient create') ->
        (forall j, j < 3 ->
           create j (large_prompt text) = create' j (large_prompt text)) ->
        run_large_model_compile reg text u = run_large_model_compile reg' text u).
Proof.
  intros Hreg. unfold run_large_model_compile. rewrite Hreg.
  split; [|split].
  - intros Hfail. by apply (large_loop_rate_limited create max_retries 0).
  - intros k e Hk Hfail Herr Hno.
    by apply (large_loop_other_error create max_retries 0 k).
  - intros reg' create' Hreg' Hsame. rewrite Hreg'.
    by apply (large_loop_ext create create' max_retries 0).
Qed.

(** A client that is always rate limited, and one that breaks down at its
    second attempt. *)
Lemma compile_gives_up_after_three_attempts_witness :
  run_large_model_compile (MoreScenario.with_large MoreScenario.groq_rate_limited)
    "L:a L:b" zero_usage
  = (Returned "Summary failed due to Rate Limits.", zero_usage)
  /\ run_large_model_compile (MoreScenario.with_large MoreScenario.groq_breaks)
       "L:a L:b" zero_usage
     = (Returned "Final summary generation failed: Error code: 500 - internal error",
        zero_usage).
Proof.
  split.
  - eapply (proj1 (compile_gives_up_after_three_attempts
                     (MoreScenario.with_large MoreScenario.groq_rate_limited)
                     _ "L:a L:b" zero_usage eq_refl)).
    intros j _. exists "Error code: 429 - rate limit reached". split; reflexivity.
  - eapply (proj1 (proj2 (compile_gives_up_after_three_attempts
                            (MoreScenario.with_large MoreScenario.groq_breaks)
                            _ "L:a L:b" zero_usage eq_refl)) 1);
      try reflexivity; [lia|].
    intros j Hj. exists "Error code: 429 - rate limit reached".
    destruct j; [split; reflexivity|lia].
Defined.

Lemma substring_length_le n s : String.length (String.substring 0 n s) <= n.
Proof.
  revert s. induction n as [|n IH]; intros [|a s]; simpl; try lia.
  specialize (IH s). lia.
Qed.

Lemma substring_prefix n s : String.prefix (String.substring 0 n s) s = true.
Proof.
  revert s. induction n as [|n IH]; intros [|a s]; simpl; try done.
  destruct (Ascii.ascii_dec a a); [apply IH|done].
Qed.

Lemma prefix_refl s : String.prefix s s = true.
Proof.
  induction s as [|a s IH]; simpl; [done|].
  by destruct (Ascii.ascii_dec a a).
Qed.

Lemma truncate_length text : String.length (truncate text) <= 1024.
Proof.
  unfold truncate, max_chunk_length.
  destruct (Nat.ltb 1024 (String.length text)) eqn:H.
  - apply substring_length_le.
  - apply Nat.ltb_ge in H. exact H.
Qed.

Lemma truncate_prefix text : String.prefix (truncate text) text = true.
Proof.
  unfold truncate. destruct (Nat.ltb _ _);
    [apply substring_prefix|apply prefix_refl].
Qed.

Lemma calculated_min_bounds text : 5 <= calculated_min text <= 30.
Proof. unfold calculated_min. lia. Qed.

(** X3. A single-unit call changes no counter but its own tier's: the
    other keys of the usage dict are left as they are, a missing key is not
    created, and the tier's counter never decreases and grows by at most
    1024 per light-tier call and by at most the length of the text per
    medium-tier call. *)
Theorem runners_touch_only_their_counter reg text (u : gmap string nat) :
  (forall k, k <> "light" -> (run_light_summarizer reg text u).2 !! k = u !! k)
  /\ (forall k, k <> "medium" -> (run_medium_summarizer reg text u).2 !! k = u !! k)
  /\ (u !! "light" = None -> (run_light_summarizer reg text u).2 = u)
  /\ (u !! "medium" = None -> (run_medium_summarizer reg text u).2 = u)
  /\ (forall n, u !! "light" = Some n ->
        exists m, (run_light_summarizer reg text u).2 !! "light" = Some m
                  /\ n <= m <= n + 1024)
  /\ (forall n, u !! "medium" = Some n ->
        exists m, (run_medium_summarizer reg text u).2 !! "medium" = Some m
                  /\ n <= m <= n + String.length text).
Proof.
  pose proof (truncate_length text) as Hlen.
  unfold run_light_summarizer, run_medium_summarizer, light_body, medium_body,
    add_usage, getitem.
  repeat split.
  - intros k Hk. repeat case_match; simplify_eq/=; try done;
      by rewrite lookup_insert_ne.
  - intros k Hk. repeat case_match; simplify_eq/=; try done;
      by rewrite lookup_insert_ne.
  - intros Hnone. rewrite Hnone. repeat case_match; simplify_eq/=; done.
  - intros Hnone. rewrite Hnone. repeat case_match; simplify_eq/=; done.
  - intros n Hn. rewrite Hn.
    repeat case_match; simplify_eq/=;
      try (exists n; split; [done|lia]);
      (eexists; split; [apply lookup_insert_eq|lia]).
  - intros n Hn. rewrite Hn.
    repeat case_match; simplify_eq/=;
      try (exists n; split; [done|lia]);
      (eexists; split; [apply lookup_insert_eq|lia]).
Qed.

(** X4. The light-tier call hands the pipeline a prefix of the chunk of at
    most 1024 characters, a maximal length of 150 and a minimal length
    between 5 and 30: two pipelines that agree on such arguments give the
    same result and the same counters, whatever they do elsewhere. *)
Theorem light_pipeline_called_within_bounds
    reg reg' pipe pipe' text (u : gmap string nat) :
  get reg "summarizer_light" = Some (Pipeline pipe) ->
  get reg' "summarizer_light" = Some (Pipeline pipe') ->
  (forall t min_length,
      String.length t <= 1024 -> String.prefix t text = true ->
      5 <= min_length <= 30 ->
      pipe t 150 min_length = pipe' t 150 min_length) ->
  run_light_summarizer reg text u = run_light_summarizer reg' text u.
Proof.
  intros Hreg Hreg' Hsame. unfold run_light_summarizer, light_body.
  rewrite Hreg, Hreg'.
  by rewrite (Hsame _ _ (truncate_length text) (truncate_prefix text)
                (calculated_min_bounds (truncate text))).
Qed.


(** A pipeline that refuses arguments out of these bounds is never seen
    to refuse. *)
Lemma light_pipeline_called_within_bounds_witness :
  run_light_summarizer
    (install MoreScenario.pipe_picky chat_ok (classifier (fun _ => false)))
    "a chunk of text" zero_usage
  = run_light_summarizer always_accept "a chunk of text" zero_usage.
Proof.
  eapply light_pipeline_called_within_bounds; try reflexivity.
  intros t mn Hlen _ [Hlo Hhi]. cbv beta.
  apply Nat.ltb_ge in Hlen. apply Nat.ltb_ge in Hlo. apply Nat.ltb_ge in Hhi.
  by rewrite Hlen, Hlo, Hhi.
Defined.


End RunnerFacts.

(** ** More on the cost model *)

Module SchedulerMore.

Import Scheduler SchedulerFacts.
Local Open Scope Q_scope.

Lemma Q_of_nat_nonneg n : 0 <= Q_of_nat n.
Proof.
  unfold Q_of_nat. change 0 with (inject_Z 0). rewrite <- Zle_Qle. lia.
Qed.

Lemma efficiency_value N E :
  (1 <= N)%nat ->
  let r := calculate_carbon_savings (Some N) (Some E) in
  efficiency_percent r == carbon_saved_grams r / baseline_cost_gco2e r * 100
  /\ 0 < baseline_cost_gco2e r.
Proof.
  intros HN r.
  assert (0 < baseline_cost_gco2e r) as Hpos.
  { subst r. rewrite baseline_value.
    assert (inject_Z 0 < Q_of_nat N) as Hp
      by (unfold Q_of_nat; rewrite <- Zlt_Qlt; lia).
    change (inject_Z 0) with 0 in Hp. revert Hp.
    generalize (Q_of_nat N). intros q Hq. lra. }
  split; [|exact Hpos].
  change (efficiency_percent r)
    with (if is_positive (baseline_cost_gco2e r)
          then carbon_saved_grams r / baseline_cost_gco2e r * 100 else 0).
  apply is_positive_spec in Hpos. by rewrite Hpos.
Qed.

(** X6. With no more escalations than chunks, the reported savings are
    positive exactly for documents of two chunks or more: a document of a
    single chunk is reported with negative savings and a negative
    efficiency, because the one large-tier compile costs nearly as much as
    the whole baseline. The efficiency stays below 90 per cent. *)
Theorem savings_positive_from_two_chunks (N E : nat) :
  (E <= N)%nat ->
  let r := calculate_carbon_savings (Some N) (Some E) in
  (0 < carbon_saved_grams r <-> (2 <= N)%nat)
  /\ (N = 1%nat -> carbon_saved_grams r < 0 /\ efficiency_percent r < 0)
  /\ efficiency_percent r < 90.
Proof.
  intros HE r.
  pose proof (saved_value N E) as Hs. fold r in Hs.
  assert (forall z : Z, (0 < 0.01 * inject_Z z <-> (0 < z)%Z)
                        /\ (0.01 * inject_Z z < 0 <-> (z < 0)%Z)) as Hsign.
  { intros z. rewrite (Zlt_Qlt 0 z), (Zlt_Qlt z 0). change (inject_Z 0) with 0.
    generalize (inject_Z z). intros q. split; split; intros; lra. }
  assert (0 < carbon_saved_grams r <-> (2 <= N)%nat) as Hpos.
  { rewrite Hs, (proj1 (Hsign _)). lia. }
  assert ((1 <= N)%nat -> efficiency_percent r < 90) as Hbound.
  { intros HN. destruct (efficiency_value N E HN) as [He Hb].
    fold r in He, Hb. rewrite He.
    assert (carbon_saved_grams r < 0.9 * baseline_cost_gco2e r) as Hlt.
    { rewrite Hs. subst r. rewrite baseline_value. unfold Q_of_nat.
      assert (inject_Z (49 * Z.of_nat N - 5 * Z.of_nat E - 50)
              <= inject_Z (49 * Z.of_nat N)) as Hle
        by (rewrite <- Zle_Qle; lia).
      rewrite inject_Z_mult in Hle. change (inject_Z 49) with 49 in Hle.
      revert Hle. generalize (inject_Z (49 * Z.of_nat N - 5 * Z.of_nat E - 50)).
      assert (inject_Z 0 < inject_Z (Z.of_nat N)) as Hn
        by (rewrite <- Zlt_Qlt; lia).
      change (inject_Z 0) with 0 in Hn. revert Hn.
      generalize (inject_Z (Z.of_nat N)). intros n Hn q Hq. lra. }
    apply Qlt_shift_div_r in Hlt; [|exact Hb].
    revert Hlt. generalize (carbon_saved_grams r / baseline_cost_gco2e r).
    intros q Hq. lra. }
  split; [exact Hpos|]. split.
  - intros ->. assert (E = 0 \/ E = 1)%nat as HE' by lia.
    assert (carbon_saved_grams r < 0) as Hneg.
    { rewrite Hs, (proj2 (Hsign _)). lia. }
    split; [exact Hneg|].
    destruct (efficiency_value 1 E ltac:(lia)) as [He Hb]. fold r in He, Hb.
    rewrite He.
    assert (carbon_saved_grams r / baseline_cost_gco2e r < 0) as Hq.
    { apply Qlt_shift_div_r; [exact Hb|]. lra. }
    revert Hq. generalize (carbon_saved_grams r / baseline_cost_gco2e r).
    intros q Hq. lra.
  - destruct N as [|N]; [|apply Hbound; lia].
    assert (E = 0)%nat as -> by lia. subst r. vm_compute. reflexivity.
Qed.

(** Five chunks of which two were escalated save carbon; one chunk alone
    does not. *)
Lemma savings_positive_from_two_chunks_witness :
  0 < carbon_saved_grams (calculate_carbon_savings (Some 5%nat) (Some 2%nat))
  /\ carbon_saved_grams (calculate_carbon_savings (Some 1%nat) (Some 0%nat)) < 0.
Proof.
  split.
  - apply (proj1 (savings_positive_from_two_chunks 5 2 ltac:(lia))). lia.
  - apply (proj1 (proj2 (savings_positive_from_two_chunks 1 0 ltac:(lia)))).
    reflexivity.
Defined.

End SchedulerMore.

(** ** More on the graph *)

Module GraphFacts.

Import Models Scheduler Orchestrator Observers Scenario PoolFacts OrchestratorFacts.
Local Open Scope list_scope.

Section Runs.

Variable reg : registry.
Variable triage_ext : string -> string -> string -> list Chunk.
Variable carbon_router_ext : string -> outcome (string * CarbonReport).

Local Abbreviation step' := (step reg triage_ext carbon_router_ext).
Local Abbreviation run' := (run reg triage_ext carbon_router_ext).

(** A property that holds at first and that the steps keep holds where a
    bounded run stops. *)
Lemma run_keeps (P : config -> Prop) fuel c :
  P c ->
  (forall c c' log, P c -> step' c = (Returned c', log) -> P c') ->
  match run' fuel c with
  | Finished c' | Running c' => P c'
  | Failed _ _ => True
  end.
Proof.
  intros Hc Hstep. revert c Hc. induction fuel as [|fuel IH]; intros c Hc; simpl.
  - by destruct (at_node c).
  - destruct (step' c) as [[c'|e] log] eqn:Hs.
    + destruct (at_node c); try done; eapply IH, Hstep; eauto.
    + by destruct (at_node c).
Qed.

(** The gate records as many escalated chunks as it lists failed ones. *)
Lemma check_accuracy_count st w st' :
  check_accuracy reg st = (w, Returned st') ->
  chunks_escalated st' = length (failed_chunks st').
Proof.
  unfold check_accuracy.
  destruct (gate_loop _ _ _ _ _ _) as [w' [[failed passed]|e]];
    intros [= _ <-]; done.
Qed.

(** The nodes after the gate leave its two results alone. *)
Lemma after_gate_frame n picks st w st' :
  n = n_reduce_compile_summary \/ n = n_store_for_rag \/ n = n_calculate_carbon ->
  run_node reg triage_ext carbon_router_ext n picks st = (w, Returned st') ->
  chunks_escalated st' = chunks_escalated st
  /\ failed_chunks st' = failed_chunks st.
Proof.
  intros [-> | [-> | ->]]; simpl;
    unfold reduce_compile_summary, store_for_rag, calculate_carbon;
    intros H; repeat case_match; simplify_eq/=; done.
Qed.

Lemma standard_invariant_initial st0 schedules :
  route_start_job st0 = "standard_mode"%string ->
  standard_invariant triage_ext st0 (initial_config st0 schedules).
Proof.
  intros _. split; [apply run_invariant_initial|]. simpl. repeat split; done.
Qed.

Lemma standard_invariant_step st0 c c' log :
  route_start_job st0 = "standard_mode"%string ->
  standard_invariant triage_ext st0 c ->
  step' c = (Returned c', log) ->
  standard_invariant triage_ext st0 c'.
Proof.
  intros Hstd (Hinv & Hrouter & Hsettled & Hend) Hstep.
  pose proof (run_invariant_step _ _ _ _ _ _ _ Hinv Hstep) as Hinv'.
  split; [exact Hinv'|].
  apply step_returned in Hstep as (w & Hnode & Hat & _).
  destruct Hinv as (_ & _ & _ & _ & _ & Hunits & _).
  destruct Hinv' as (_ & _ & Hmode & _).
  rewrite Hat. destruct (at_node c) eqn:Hn; simpl; try done.
  - (* start_job *)
    rewrite (route_start_job_mode _ _ Hmode), Hstd. simpl. repeat split; done.
  - (* check_accuracy *)
    pose proof (check_accuracy_count _ _ _ Hnode) as Hcount.
    unfold should_rerun. destruct (failed_chunks (state c')) eqn:Hf; simpl.
    + repeat split; try done.
    + repeat split; done.
  - (* reduce_compile_summary *)
    destruct (after_gate_frame n_reduce_compile_summary _ _ _ _
                (or_introl eq_refl) Hnode) as [-> ->].
    repeat split; try done; by apply Hsettled.
  - (* store_for_rag *)
    destruct (after_gate_frame n_store_for_rag _ _ _ _
                (or_intror (or_introl eq_refl)) Hnode) as [-> ->].
    repeat split; try done; by apply Hsettled.
  - (* calculate_carbon *)
    destruct (after_gate_frame n_calculate_carbon _ _ _ _
                (or_intror (or_intror eq_refl)) Hnode) as [He Hf].
    rewrite He, Hf. destruct (Hsettled eq_refl) as [Hzero Hnil].
    destruct (Hunits eq_refl) as (_ & Htot & _).
    repeat split; try done.
    intros _. simpl in Hnode. unfold calculate_carbon in Hnode.
    injection Hnode as _ <-. simpl. by rewrite Hzero, Htot.
  - (* END *)
    simpl in Hnode. injection Hnode as _ <-.
    repeat split; try done; by apply Hsettled || by apply Hend.
Qed.

End Runs.

Lemma run_Finished_END reg triage_ext carbon_router_ext fuel c c' :
  run reg triage_ext carbon_router_ext fuel c = Finished c' -> at_node c' = n_END.
Proof.
  revert c. induction fuel as [|fuel IH]; intros c; simpl.
  - destruct (at_node c) eqn:Hn; intros [= <-]; done.
  - destruct (at_node c) eqn:Hn; try (intros [= <-]; done);
      destruct (step reg triage_ext carbon_router_ext c) as [[c1|e] log];
      try done; apply IH.
Qed.

(** X7. Whenever a standard-mode run ends, however many escalation passes
    it went through, its final state counts 0 escalated chunks and its
    carbon report is the report of a run without any escalation: every gate
    pass overwrites the count with the number of chunks it rejected, and
    the last pass rejected none. *)
Theorem finished_run_reports_no_escalation
    reg triage_ext carbon_router_ext st schedules fuel c :
  route_start_job st = "standard_mode"%string ->
  run reg triage_ext carbon_router_ext fuel (initial_config st schedules)
  = Finished c ->
  chunks_escalated (state c) = 0
  /\ failed_chunks (state c) = []
  /\ carbon_report (state c)
     = Some (calculate_carbon_savings
               (Some (length (triage_ext (file_path st) (file_type st) TRIAGE_STRATEGY)))
               (Some 0)).
Proof.
  intros Hstd Hrun.
  pose proof (run_keeps reg triage_ext carbon_router_ext
                (standard_invariant triage_ext st) fuel
                (initial_config st schedules)
                (standard_invariant_initial triage_ext st schedules Hstd)) as Hkeep.
  rewrite Hrun in Hkeep.
  destruct Hkeep as (_ & _ & Hsettled & Hend).
  { intros c1 c2 log. by apply standard_invariant_step. }
  apply run_Finished_END in Hrun. rewrite Hrun in Hsettled.
  destruct (Hsettled eq_refl) as [Hzero Hnil]. by auto.
Qed.

(** Five units of which two are escalated once: the run ends with a count
    of 0 and a report without medium-tier cost. *)
Lemma finished_run_reports_no_escalation_witness :
  exists c,
    run rejects_light_1_3 (triage_gives five_units) no_router 9
      (initial_config new_job []) = Finished c
    /\ escalations (trace rejects_light_1_3 (triage_gives five_units) no_router 9
                      (initial_config new_job []))
       = [[unit_of 1 "c1"; unit_of 3 "c3"]]
    /\ chunks_escalated (state c) = 0
    /\ carbon_report (state c) = Some (calculate_carbon_savings (Some 5) (Some 0)).
Proof.
  pose proof (finished_run_reports_no_escalation rejects_light_1_3
                (triage_gives five_units) no_router new_job [] 9) as H.
  destruct (run rejects_light_1_3 (triage_gives five_units) no_router 9
              (initial_config new_job [])) as [c|msg log|c] eqn:Hrun;
    [|vm_compute in Hrun; discriminate..].
  exists c. destruct (H c eq_refl eq_refl) as (Hzero & _ & Hreport).
  split; [reflexivity|]. split; [vm_compute; reflexivity|].
  split; [exact Hzero|exact Hreport].
Defined.

(** X8. When triage returns no chunk, a standard-mode job fails at the
    triage node with the message "Triage returned no chunks. Cannot
    proceed.", whatever models are loaded: no later node runs, and the
    progress written over the job is 5, 5, 15 and then the 100 that goes
    with the status error. *)
Theorem empty_triage_fails_the_job
    reg triage_ext carbon_router_ext st schedules fuel :
  route_start_job st = "standard_mode"%string ->
  triage_ext (file_path st) (file_type st) TRIAGE_STRATEGY = [] ->
  2 <= fuel ->
  run reg triage_ext carbon_router_ext fuel (initial_config st schedules)
  = Failed "Triage returned no chunks. Cannot proceed." [5; 15]%Q
  /\ job_progress reg triage_ext carbon_router_ext fuel st schedules
     = Some [5; 5; 15; 100]%Q.
Proof.
  intros Hstd Hempty Hfuel.
  destruct fuel as [|[|fuel]]; try lia.
  assert (run reg triage_ext carbon_router_ext (S (S fuel))
            (initial_config st schedules)
          = Failed "Triage returned no chunks. Cannot proceed." [5; 15]%Q) as Hrun.
  { cbn [run initial_config at_node step run_node start_job state
           Orchestrator.schedules progress_log visited uses_pool next_node].
    change (route_start_job (set_model_usage_chars _ st))
      with (route_start_job st).
    rewrite Hstd. cbn [String.eqb Ascii.eqb Bool.eqb].
    unfold step.
    cbn [at_node run_node state Orchestrator.schedules progress_log].
    unfold triage_document.
    change (file_path (set_model_usage_chars _ st)) with (file_path st).
    change (file_type (set_model_usage_chars _ st)) with (file_type st).
    by rewrite Hempty. }
  split; [exact Hrun|]. unfold job_progress. by rewrite Hrun.
Qed.

Lemma empty_triage_fails_the_job_witness :
  job_progress always_accept (triage_gives []) no_router 9 new_job []
  = Some [5; 5; 15; 100]%Q.
Proof.
  apply (empty_triage_fails_the_job always_accept (triage_gives []) no_router
           new_job [] 9); [reflexivity|reflexivity|lia].
Defined.

(** X9. In eco mode (the job mode spelled "eco" in any letter case) only
    the start node and the carbon router run, whatever models are loaded:
    no chunk is produced, no summarizer or verifier is called, the final
    summary and the report are the router's, and the progress goes 5, 50,
    100. When the router's analysis raises, the run fails with that error
    after progress 5, 50. *)
Theorem eco_mode_runs_only_the_router
    reg triage_ext carbon_router_ext st schedules fuel :
  route_start_job st = "eco_mode"%string ->
  2 <= fuel ->
  match carbon_router_ext (file_path st) with
  | Returned (summary_text, report) =>
      exists c,
        run reg triage_ext carbon_router_ext fuel (initial_config st schedules)
        = Finished c
        /\ visited c = [n_start_job; n_run_carbon_router]
        /\ progress_log c = [5; 50; 100]%Q
        /\ final_summary (state c) = summary_text
        /\ carbon_report (state c) = Some report
        /\ chunks (state c) = chunks st
        /\ summaries (state c) = summaries st
        /\ model_usage_chars (state c)
           = <["light" := 0]> (<["medium" := 0]> (<["large" := 0]> ∅))
        /\ Orchestrator.schedules c = schedules
  | Raised e =>
      run reg triage_ext carbon_router_ext fuel (initial_config st schedules)
      = Failed e [5; 50]%Q
  end.
Proof.
  intros Heco Hfuel. destruct fuel as [|[|fuel]]; try lia.
  cbn [run initial_config at_node step run_node start_job state
         Orchestrator.schedules progress_log visited uses_pool next_node].
  change (route_start_job (set_model_usage_chars _ st)) with (route_start_job st).
  rewrite Heco. cbn [String.eqb Ascii.eqb Bool.eqb].
  unfold step.
  cbn [at_node run_node state Orchestrator.schedules progress_log visited].
  unfold run_carbon_router.
  change (file_path (set_model_usage_chars _ st)) with (file_path st).
  destruct (carbon_router_ext (file_path st)) as [[summary_text report]|e].
  - eexists. split; [apply run_END; reflexivity|]. by repeat split.
  - reflexivity.
Qed.

Lemma route_start_job_lower st mode :
  job_mode st = Some mode -> lower mode = "eco"%string ->
  route_start_job st = "eco_mode"%string.
Proof. unfold route_start_job. intros -> Hl. simpl. by rewrite Hl. Qed.

(** A job submitted with mode "ECO" and a loaded registry: the router's
    text is the final summary and no chunk was summarized. *)
Lemma eco_mode_runs_only_the_router_witness :
  exists c,
    run always_reject (triage_gives five_units) MoreScenario.router_answers 9
      (initial_config MoreScenario.eco_job []) = Finished c
    /\ visited c = [n_start_job; n_run_carbon_router]
    /\ final_summary (state c) = "CARBON ROUTER ANALYSIS"%string
    /\ summaries (state c) = [].
Proof.
  destruct (eco_mode_runs_only_the_router always_reject (triage_gives five_units)
              MoreScenario.router_answers MoreScenario.eco_job [] 9)
    as (c & Hrun & Hvis & _ & Hsum & _ & _ & Hs & _).
  - by apply (route_start_job_lower _ "ECO").
  - lia.
  - exists c. by repeat split.
Defined.

Lemma filter_sublist {A} (f : A -> bool) (l : list A) :
  List.filter f l `sublist_of` l.
Proof.
  induction l as [|x l IH]; simpl; [constructor|].
  destruct (f x); by constructor.
Qed.

Lemma fst_zip_take {A B} (l : list A) (k : list B) :
  (zip l k).*1 = take (length k) l.
Proof.
  revert k. induction l as [|x l IH]; intros [|y k]; simpl; try done.
  by rewrite IH.
Qed.

Lemma snd_zip_take {A B} (l : list A) (k : list B) :
  (zip l k).*2 = take (length l) k.
Proof.
  revert k. induction l as [|x l IH]; intros [|y k]; simpl; try done.
  by rewrite IH.
Qed.

Lemma elem_of_filter_bool {A} (f : A -> bool) (l : list A) x :
  x ∈ l -> f x = true -> x ∈ List.filter f l.
Proof.
  intros Hin Hf. apply list_elem_of_In, List.filter_In.
  split; [by apply list_elem_of_In|done].
Qed.

(** X10. On a state with a positive chunk count the gate returns and
    sorts the positions it can pair: the failed chunks are, in order, the
    chunks whose pair the verifier rejects and the summaries kept are, in
    order, those it accepts; every paired position lands on exactly one
    side, and the count of escalated chunks is the number of failed ones.
    Chunks beyond the length of the summaries are not looked at, and the
    gate changes neither the chunks nor the usage counters. *)
Theorem gate_sorts_the_paired_positions reg st :
  0 < total_chunks st ->
  exists w st',
    check_accuracy reg st = (w, Returned st')
    /\ failed_chunks st' `sublist_of` take (length (summaries st)) (chunks st)
    /\ summaries st' `sublist_of` take (length (chunks st)) (summaries st)
    /\ length (failed_chunks st') + length (summaries st')
       = length (chunks st) `min` length (summaries st)
    /\ chunks_escalated st' = length (failed_chunks st')
    /\ (forall i c s,
          chunks st !! i = Some c -> summaries st !! i = Some s ->
          if accepts reg (c, s) then s ∈ summaries st' else c ∈ failed_chunks st')
    /\ chunks st' = chunks st
    /\ model_usage_chars st' = model_usage_chars st.
Proof.
  intros Htot. destruct (check_accuracy_returns reg st Htot) as [w Hret].
  eexists _, _. split; [exact Hret|]. cbv zeta. simpl.
  split; [|split; [|split; [|split; [done|split; [|done]]]]].
  - rewrite <- fst_zip_take. apply fmap_sublist, filter_sublist.
  - rewrite <- snd_zip_take. apply fmap_sublist, filter_sublist.
  - pose proof (check_accuracy_length reg st _ _ Hret) as [_ Hlen].
    simpl in Hlen. lia.
  - intros i c s Hc Hs.
    assert ((c, s) ∈ zip (chunks st) (summaries st)) as Hin.
    { apply list_elem_of_lookup. exists i. by apply lookup_zip_with_Some; eauto. }
    destruct (accepts reg (c, s)) eqn:Hacc.
    + apply (list_elem_of_fmap_2 snd _ (c, s)). by apply elem_of_filter_bool.
    + apply (list_elem_of_fmap_2 fst _ (c, s)). apply elem_of_filter_bool; [done|].
      by rewrite Hacc.
Qed.

(** Five summarized units of which the verifier rejects two. *)
Lemma gate_sorts_the_paired_positions_witness :
  exists st',
    (check_accuracy rejects_light_1_3 five_summarized).2 = Returned st'
    /\ length (failed_chunks st') + length (summaries st') = 5
    /\ chunks_escalated st' = length (failed_chunks st').
Proof.
  destruct (gate_sorts_the_paired_positions rejects_light_1_3 five_summarized)
    as (w & st' & Hret & _ & _ & Hlen & Hcount & _); [simpl; lia|].
  exists st'. rewrite Hret. by repeat split.
Defined.

(** The light tier keeps the key of its counter as it finds it, and its
    text depends on the counters only through the presence of that key. *)
Lemma run_light_keeps_key reg text (u : gmap string nat) :
  is_Some ((run_light_summarizer reg text u).2 !! "light") <-> is_Some (u !! "light").
Proof.
  unfold run_light_summarizer, light_body, add_usage, getitem.
  repeat case_match; simplify_eq/=;
    first [ tauto
          | rewrite lookup_insert_eq; split; eauto
          | match goal with H : _ !! "light" = None |- _ => rewrite H; tauto end ].
Qed.

Lemma run_light_text_same_key reg text (u u' : gmap string nat) :
  (is_Some (u !! "light") <-> is_Some (u' !! "light")) ->
  (run_light_summarizer reg text u).1 = (run_light_summarizer reg text u').1.
Proof.
  intros Hkey. unfold run_light_summarizer, light_body, add_usage, getitem.
  destruct (get reg "summarizer_light") as [[pipe| | | |]|]; try done.
  destruct (pipe _ _ _) as [result|e]; [|done].
  destruct (u !! "light") as [n|] eqn:Hu, (u' !! "light") as [n'|] eqn:Hu'; simpl.
  - by destruct (getitem0 result) as [d|e]; [destruct (d !! "summary_text")|].
  - destruct (proj1 Hkey ltac:(eauto)) as [? [=]].
  - destruct (proj2 Hkey ltac:(eauto)) as [? [=]].
  - done.
Qed.

Lemma run_pool_light_texts reg done (u0 u : gmap string nat) :
  (is_Some (u !! "light") <-> is_Some (u0 !! "light")) ->
  (run_pool (run_light_summarizer reg) done u).1
  = Returned <$> (light_text reg u0 <$> done).
Proof.
  revert u. induction done as [|c rest IH]; intros u Hkey; csimpl; [done|].
  pose proof (run_light_text_same_key reg (content c) u u0 Hkey) as Htext.
  pose proof (run_light_keeps_key reg (content c) u) as Hkeep.
  destruct (ModelsFacts.run_light_summarizer_returns reg (content c) u)
    as (s & u1 & Hrun).
  rewrite Hrun in Htext, Hkeep |- *. simpl in Htext, Hkeep.
  specialize (IH u1 ltac:(by rewrite Hkeep)).
  destruct (run_pool (run_light_summarizer reg) rest u1) as [os u2].
  simpl in IH |- *. rewrite IH. f_equal.
  unfold light_text. by rewrite <- Htext.
Qed.

Lemma fmap_Returned_inj {A} (l k : list A) :
  Returned <$> l = Returned <$> k -> l = k.
Proof.
  revert k. induction l as [|x l IH]; intros [|y k]; csimpl; try done.
  intros [= -> H]. f_equal. by apply IH.
Qed.

(** X11. On a state with a positive chunk count the first map pass
    returns one summary per chunk and loses or repeats none: its summaries
    are the light-tier texts of the chunks taken in the order in which the
    workers finish, hence a permutation of the texts of the chunks in
    document order, whatever the schedule. *)
Theorem map_summaries_are_a_permutation reg picks st :
  0 < total_chunks st ->
  exists w st',
    map_summarize_chunks reg picks st = (w, Returned st')
    /\ summaries st'
       = light_text reg (model_usage_chars st) <$> as_completed picks (chunks st)
    /\ summaries st' ≡ₚ light_text reg (model_usage_chars st) <$> chunks st
    /\ chunks st' = chunks st.
Proof.
  intros Htot.
  destruct (map_summarize_chunks_returns reg picks st Htot)
    as (w & texts & u & Hpool & _ & Hret).
  eexists _, _. split; [exact Hret|]. simpl.
  assert (texts = light_text reg (model_usage_chars st)
                    <$> as_completed picks (chunks st)) as ->.
  { pose proof (run_pool_light_texts reg (as_completed picks (chunks st))
                  (model_usage_chars st) (model_usage_chars st) ltac:(done))
      as Htexts.
    rewrite Hpool in Htexts. simpl in Htexts.
    by apply fmap_Returned_inj in Htexts. }
  split; [done|]. split; [|done].
  by rewrite as_completed_Permutation.
Qed.

(** Two units of which the second finishes first. *)
Lemma map_summaries_are_a_permutation_witness :
  exists st',
    (map_summarize_chunks always_accept [1] (set_chunks two_units 2 new_job)).2
    = Returned st'
    /\ summaries st' = ["L:b"; "L:a"]%string
    /\ summaries st' ≡ₚ ["L:a"; "L:b"]%string.
Proof.
  destruct (map_summaries_are_a_permutation always_accept [1]
              (set_chunks two_units 2 new_job))
    as (w & st' & Hret & Hsum & Hperm & _); [simpl; lia|].
  exists st'. rewrite Hret. split; [done|]. split; [by rewrite Hsum|].
  by rewrite Hperm.
Defined.

End GraphFacts.

(** ** The progress of a job *)

Module ProgressFacts.

Import Models Scheduler Orchestrator Observers Scenario PoolFacts OrchestratorFacts.
Local Open Scope list_scope.

Lemma climbs_nil lo hi : climbs lo hi [].
Proof. split; [done|constructor]. Qed.

Lemma climbs_cons lo hi x l :
  (lo <= x)%Q -> (x <= hi)%Q -> climbs x hi l -> climbs lo hi (x :: l).
Proof.
  intros Hlo Hhi [Hasc Hall]. split.
  - destruct l as [|y l]; [done|]. simpl in *.
    apply Forall_cons in Hall as [[Hy _] _].
    apply Qle_bool_iff in Hy. by rewrite Hy.
  - constructor; [done|]. eapply Forall_impl; [exact Hall|].
    intros p [H1 H2]. split; [|done]. by apply (Qle_trans _ x).
Qed.

Lemma climbs_weaken lo lo' hi hi' l :
  (lo' <= lo)%Q -> (hi <= hi')%Q -> climbs lo hi l -> climbs lo' hi' l.
Proof.
  intros Hlo Hhi [Hasc Hall]. split; [done|].
  eapply Forall_impl; [exact Hall|]. intros p [H1 H2].
  split; [by apply (Qle_trans _ lo)|by apply (Qle_trans _ hi)].
Qed.

Lemma climbs_app a b c l w :
  (a <= b)%Q -> (b <= c)%Q -> climbs a b l -> climbs b c w -> climbs a c (l ++ w).
Proof.
  intros Hab Hbc. induction l as [|x l IH]; intros Hl Hw; simpl.
  - apply (climbs_weaken b a c c); [done|apply Qle_refl|done].
  - destruct Hl as [Hasc Hall]. apply Forall_cons in Hall as [[Hx1 Hx2] Hall].
    assert (climbs a b l) as Hl'.
    { split; [|done]. destruct l as [|y l]; [done|]. simpl in Hasc.
      by apply andb_true_iff in Hasc as [_ ?]. }
    specialize (IH Hl' Hw). destruct IH as [Hasc' Hall']. split.
    + destruct l as [|y l]; simpl in *.
      * destruct w as [|z w]; [done|].
        destruct Hw as [_ Hw]. apply Forall_cons in Hw as [[Hz _] _].
        rewrite Hasc'. rewrite andb_true_r. apply Qle_bool_iff.
        by apply (Qle_trans _ b).
      * apply andb_true_iff in Hasc as [Hxy _]. by rewrite Hxy.
    + constructor; [|done]. split; [done|]. by apply (Qle_trans _ b).
Qed.

Lemma climbs_within lo hi l : climbs lo hi l -> nondecreasing l = true.
Proof. by intros [? _]. Qed.

Lemma Q_of_nat_le a b : a <= b -> (Q_of_nat a <= Q_of_nat b)%Q.
Proof. intros H. unfold Q_of_nat. rewrite <- Zle_Qle. lia. Qed.

Lemma Q_of_nat_pos a : 0 < a -> (0 < Q_of_nat a)%Q.
Proof.
  intros H. unfold Q_of_nat. change 0%Q with (inject_Z 0).
  rewrite <- Zlt_Qlt. lia.
Qed.

(** [(i + 1) / total] grows with [i] and is at most 1 while [i < total]. *)
Lemma ratio_le a b t :
  0 < t -> a <= b -> (Q_of_nat a / Q_of_nat t <= Q_of_nat b / Q_of_nat t)%Q.
Proof.
  intros Ht Hab. unfold Qdiv. apply Qmult_le_compat_r.
  - by apply Q_of_nat_le.
  - apply Qlt_le_weak, Qinv_lt_0_compat. by apply Q_of_nat_pos.
Qed.

Lemma ratio_le_1 a t : 0 < t -> a <= t -> (Q_of_nat a / Q_of_nat t <= 1)%Q.
Proof.
  intros Ht Hat.
  apply (Qle_trans _ (Q_of_nat t / Q_of_nat t)); [by apply ratio_le|].
  unfold Qdiv. rewrite Qmult_inv_r; [apply Qle_refl|].
  intros H. pose proof (Q_of_nat_pos t Ht) as Hp. rewrite H in Hp.
  by apply Qlt_irrefl in Hp.
Qed.

Lemma ratio_nonneg a t : 0 < t -> (0 <= Q_of_nat a / Q_of_nat t)%Q.
Proof.
  intros Ht. apply (Qle_trans _ (Q_of_nat 0 / Q_of_nat t)).
  - unfold Qdiv. change (Q_of_nat 0) with 0%Q. rewrite Qmult_0_l. apply Qle_refl.
  - apply ratio_le; [done|lia].
Qed.

(** The writes of the two loops that report progress unit by unit. *)
Lemma collect_light_climbs total i done acc w r :
  0 < total -> i + length done <= total ->
  collect_light total i done acc = (w, r) ->
  climbs (25 + Q_of_nat i / Q_of_nat total * 30) 55 w.
Proof.
  intros Htot. revert i acc w r.
  induction done as [|[s|e] rest IH]; intros i acc w r Hlen; simpl.
  - intros [= <- _]. apply climbs_nil.
  - unfold fraction. destruct total as [|t] eqn:Ht; [lia|]. rewrite <- Ht in *.
    destruct (collect_light total (S i) rest (acc ++ [s])) as [w' r'] eqn:Hrec.
    intros [= <- _]. simpl in Hlen.
    apply IH in Hrec; [|lia].
    pose proof (ratio_le i (i + 1) total Htot ltac:(lia)) as H1.
    pose proof (ratio_le_1 (i + 1) total Htot ltac:(lia)) as H2.
    replace (S i) with (i + 1) in Hrec by lia.
    apply climbs_cons; [| |exact Hrec].
    + revert H1. generalize (Q_of_nat i / Q_of_nat total)%Q
        (Q_of_nat (i + 1) / Q_of_nat total)%Q. intros p q Hpq. lra.
    + revert H2. generalize (Q_of_nat (i + 1) / Q_of_nat total)%Q. intros q Hq. lra.
  - intros [= <- _]. apply climbs_nil.
Qed.

Lemma gate_loop_climbs reg total i pairs failed passed w r :
  0 < total -> i + length pairs <= total ->
  gate_loop reg total i pairs failed passed = (w, r) ->
  climbs (55 + Q_of_nat i / Q_of_nat total * 15) 70 w.
Proof.
  intros Htot. revert i failed passed w r.
  induction pairs as [|[c s] rest IH]; intros i failed passed w r Hlen; simpl.
  - intros [= <- _]. apply climbs_nil.
  - destruct (run_accuracy_check reg (content c) s) as [b|e];
      [|intros [= <- _]; apply climbs_nil].
    unfold fraction. destruct total as [|t] eqn:Ht; [lia|]. rewrite <- Ht in *.
    destruct (gate_loop reg total (S i) rest _ _) as [w' r'] eqn:Hrec.
    intros [= <- _]. simpl in Hlen.
    apply IH in Hrec; [|lia].
    pose proof (ratio_le i (i + 1) total Htot ltac:(lia)) as H1.
    pose proof (ratio_le_1 (i + 1) total Htot ltac:(lia)) as H2.
    replace (S i) with (i + 1) in Hrec by lia.
    apply climbs_cons; [| |exact Hrec].
    + revert H1. generalize (Q_of_nat i / Q_of_nat total)%Q
        (Q_of_nat (i + 1) / Q_of_nat total)%Q. intros p q Hpq. lra.
    + revert H2. generalize (Q_of_nat (i + 1) / Q_of_nat total)%Q. intros q Hq. lra.
Qed.

Lemma level_ge_5 n : (5 <= level n)%Q.
Proof. destruct n; simpl; lra. Qed.

Lemma level_le_100 n : (level n <= 100)%Q.
Proof. destruct n; simpl; lra. Qed.

Lemma Forall_within_app (lo hi : Q) l w :
  Forall (fun p => (lo <= p)%Q /\ (p <= hi)%Q) l ->
  Forall (fun p => (lo <= p)%Q /\ (p <= hi)%Q) w ->
  Forall (fun p => (lo <= p)%Q /\ (p <= hi)%Q) (l ++ w).
Proof. intros. by apply Forall_app. Qed.

Section Writes.

Variable reg : registry.
Variable triage_ext : string -> string -> string -> list Chunk.
Variable carbon_router_ext : string -> outcome (string * CarbonReport).

Local Abbreviation step' := (step reg triage_ext carbon_router_ext).
Local Abbreviation run' := (run reg triage_ext carbon_router_ext).
Local Abbreviation trace' := (trace reg triage_ext carbon_router_ext).
Local Abbreviation run_node' := (run_node reg triage_ext carbon_router_ext).

Lemma level_next n st :
  n <> n_map_escalate_chunks ->
  (level n <= level (next_node n st))%Q.
Proof.
  intros Hn. destruct n; cbn [next_node level]; try done; try lra.
  - destruct (String.eqb _ _); simpl; lra.
  - destruct (String.eqb _ _); simpl; lra.
Qed.

Lemma step_raised c e log :
  step' c = (Raised e, log) ->
  exists w,
    run_node' (at_node c) (hd [] (schedules c)) (state c) = (w, Raised e)
    /\ log = progress_log c ++ w.
Proof.
  unfold step. destruct (run_node _ _ _ _ _ _) as [w [st|e']]; intros [= <- <-].
  by exists w.
Qed.

(** What a node other than the escalation node writes lies between the
    level of the node and the level of the node that follows. *)
Lemma node_writes_climb st0 c w r :
  run_invariant triage_ext st0 c ->
  at_node c <> n_map_escalate_chunks ->
  run_node' (at_node c) (hd [] (schedules c)) (state c) = (w, r) ->
  climbs (level (at_node c))
    (match r with
     | Returned st' => level (next_node (at_node c) st')
     | Raised _ => 100
     end) w.
Proof.
  intros (_ & _ & _ & _ & _ & Hunits & _) Hesc.
  assert (past_triage (at_node c) = true ->
          0 < total_chunks (state c)
          /\ length (chunks (state c)) = total_chunks (state c)) as Htot.
  { intros H. destruct (Hunits H) as (-> & -> & Hne). split; [|done].
    destruct (units_of triage_ext st0); [done|simpl; lia]. }
  clear Hunits. destruct (at_node c) eqn:Hn; cbn [run_node level next_node].
  - unfold start_job. intros [= <- <-].
    destruct (String.eqb _ _); simpl;
      (apply climbs_cons; [lra|lra|apply climbs_nil]).
  - unfold triage_document.
    destruct (triage_ext _ _ _); intros [= <- <-]; simpl;
      (apply climbs_cons; [lra|lra|apply climbs_nil]).
  - destruct (Htot eq_refl) as [Hpos Hlen].
    unfold map_summarize_chunks.
    destruct (run_pool _ _ _) as [results u] eqn:Hp.
    destruct (collect_light _ _ _ _) as [w' r'] eqn:Hc. intros [= <- <-].
    apply collect_light_climbs in Hc; [|done|].
    2:{ change results with (results, u).1. rewrite <- Hp, run_pool_length,
          as_completed_length. simpl. lia. }
    pose proof (ratio_nonneg 0 _ Hpos) as H0.
    assert (climbs 25 55 w') as Hw.
    { eapply climbs_weaken; [| |exact Hc]; [|lra].
      revert H0. generalize (Q_of_nat 0 / Q_of_nat (total_chunks (state c)))%Q.
      intros q Hq. lra. }
    destruct r'; simpl.
    + apply climbs_cons; [lra|lra|done].
    + apply climbs_cons; [lra|lra|]. eapply climbs_weaken; [| |exact Hw]; lra.
  - destruct (Htot eq_refl) as [Hpos Hlen].
    unfold check_accuracy.
    destruct (gate_loop _ _ _ _ _ _) as [w' r'] eqn:Hc. intros [= <- <-].
    apply gate_loop_climbs in Hc; [|done|].
    2:{ rewrite length_zip_with. simpl. lia. }
    pose proof (ratio_nonneg 0 _ Hpos) as H0.
    assert (climbs 55 70 w') as Hw.
    { eapply climbs_weaken; [| |exact Hc]; [|lra].
      revert H0. generalize (Q_of_nat 0 / Q_of_nat (total_chunks (state c)))%Q.
      intros q Hq. lra. }
    destruct r' as [[failed passed]|e]; simpl.
    + destruct (String.eqb _ _); simpl; (apply climbs_cons; [lra|lra|done]).
    + apply climbs_cons; [lra|lra|]. eapply climbs_weaken; [| |exact Hw]; lra.
  - done.
  - unfold reduce_compile_summary.
    destruct (run_large_model_compile _ _ _) as [[f|e] u]; intros [= <- <-]; simpl;
      (apply climbs_cons; [lra|lra|apply climbs_nil]).
  - unfold store_for_rag. intros [= <- <-]. apply climbs_nil.
  - unfold calculate_carbon. intros [= <- <-]. simpl.
    apply climbs_cons; [lra|lra|apply climbs_nil].
  - unfold run_carbon_router.
    destruct (carbon_router_ext _) as [[s rep]|e]; intros [= <- <-]; simpl.
    + apply climbs_cons; [lra|lra|]. apply climbs_cons; [lra|lra|apply climbs_nil].
    + apply climbs_cons; [lra|lra|apply climbs_nil].
  - intros [= <- <-]. apply climbs_nil.
Qed.

(** Every node, the escalation node included, writes values between 5
    and 100. *)
Lemma node_writes_within st0 c w r :
  run_invariant triage_ext st0 c ->
  run_node' (at_node c) (hd [] (schedules c)) (state c) = (w, r) ->
  Forall (fun p => (5 <= p)%Q /\ (p <= 100)%Q) w.
Proof.
  intros Hinv Hnode.
  assert (at_node c = n_map_escalate_chunks \/ at_node c <> n_map_escalate_chunks)
    as [Hn|Hn] by (destruct (at_node c); (by left) || (by right)).
  - rewrite Hn in Hnode. cbn [run_node] in Hnode. unfold map_escalate_chunks in Hnode.
    destruct (run_pool _ _ _) as [results u]. injection Hnode as <- _.
    constructor; [lra|constructor].
  - pose proof (node_writes_climb _ _ _ _ Hinv Hn Hnode) as Hc.
    eapply climbs_weaken in Hc; [apply Hc|apply level_ge_5|].
    destruct r; [apply level_le_100|lra].
Qed.

Lemma at_END_or_not (c : config) : at_node c = n_END \/ at_node c <> n_END.
Proof. destruct (at_node c); (by left) || (by right). Qed.

(** Where a run that avoids the escalation node stops, its writes have
    climbed from 5 to the level of the node it stopped at. *)
Lemma run_climbs st0 fuel c :
  climbing triage_ext st0 c ->
  Forall (fun c => at_node c <> n_map_escalate_chunks) (trace' fuel c) ->
  match run' fuel c with
  | Finished c' | Running c' => climbs 5 (level (at_node c')) (progress_log c')
  | Failed _ log => climbs 5 100 log
  end.
Proof.
  revert c. induction fuel as [|fuel IH]; intros c [Hinv Hc] Htr.
  - simpl. destruct (at_node c) eqn:E; cbn beta iota; rewrite E; exact Hc.
  - destruct (at_END_or_not c) as [Hend|Hend].
    { by rewrite (run_END _ _ _ _ _ Hend). }
    destruct (step' c) as [[c'|e] log] eqn:Hs.
    + rewrite (run_step _ _ _ _ _ _ _ Hend Hs).
      rewrite (trace_step _ _ _ _ _ _ _ Hend Hs) in Htr.
      apply Forall_cons in Htr as [Hesc Htr].
      apply IH; [|done]. split; [by eapply run_invariant_step|].
      apply step_returned in Hs as (w & Hnode & Hat & _ & ->).
      pose proof (node_writes_climb _ _ _ _ Hinv Hesc Hnode) as Hw.
      simpl in Hw. rewrite Hat.
      eapply climbs_app; [apply level_ge_5|by apply level_next|done|done].
    + assert (run' (S fuel) c = Failed e log) as ->.
      { simpl. rewrite Hs. by destruct (at_node c). }
      apply Forall_cons in Htr as [Hesc _].
      apply step_raised in Hs as (w & Hnode & ->).
      pose proof (node_writes_climb _ _ _ _ Hinv Hesc Hnode) as Hw.
      simpl in Hw.
      eapply climbs_app; [apply level_ge_5|apply level_le_100|done|done].
Qed.

(** Where any run stops, its writes lie between 5 and 100. *)
Lemma run_within st0 fuel c :
  run_invariant triage_ext st0 c ->
  Forall (fun p => (5 <= p)%Q /\ (p <= 100)%Q) (progress_log c) ->
  match run' fuel c with
  | Finished c' | Running c' =>
      Forall (fun p => (5 <= p)%Q /\ (p <= 100)%Q) (progress_log c')
  | Failed _ log => Forall (fun p => (5 <= p)%Q /\ (p <= 100)%Q) log
  end.
Proof.
  revert c. induction fuel as [|fuel IH]; intros c Hinv Hc.
  - simpl. destruct (at_node c); exact Hc.
  - destruct (at_END_or_not c) as [Hend|Hend].
    { by rewrite (run_END _ _ _ _ _ Hend). }
    destruct (step' c) as [[c'|e] log] eqn:Hs.
    + rewrite (run_step _ _ _ _ _ _ _ Hend Hs).
      apply IH; [by eapply run_invariant_step|].
      apply step_returned in Hs as (w & Hnode & _ & _ & ->).
      apply Forall_within_app; [done|by eapply node_writes_within].
    + assert (run' (S fuel) c = Failed e log) as ->.
      { simpl. rewrite Hs. by destruct (at_node c). }
      apply step_raised in Hs as (w & Hnode & ->).
      apply Forall_within_app; [done|by eapply node_writes_within].
Qed.

End Writes.

(** X12. Every progress value written over a job, by the nodes and by the
    job runner around them, lies between 5 and 100: on every input, every
    set of models, every completion order of the worker pools, however
    often the gate sends units to escalation, and also when the job fails. *)
Theorem progress_stays_between_5_and_100
    reg triage_ext carbon_router_ext fuel st schedules log :
  job_progress reg triage_ext carbon_router_ext fuel st schedules = Some log ->
  Forall (fun p => (5 <= p)%Q /\ (p <= 100)%Q) log.
Proof.
  unfold job_progress.
  pose proof (run_within reg triage_ext carbon_router_ext st fuel
                (initial_config st schedules)
                (run_invariant_initial triage_ext st schedules)
                (Forall_nil_2 _)) as H.
  destruct (run _ _ _ _ _) as [c|msg l|c]; intros [= <-].
  - constructor; [lra|]. apply Forall_within_app; [done|].
    constructor; [lra|constructor].
  - constructor; [lra|]. apply Forall_within_app; [done|].
    constructor; [lra|constructor].
Qed.

(** A job with one escalation pass: the progress goes back from 75 to 55
    and stays within the bounds. *)
Lemma progress_stays_between_5_and_100_witness :
  job_progress rejects_light (triage_gives [unit_of 0 "a"]) no_router 9 new_job []
  = Some [5; 5; 15; 25; 55; 55; 70; 75; 55; 70; 85; 100; 100]%Q
  /\ Forall (fun p => (5 <= p)%Q /\ (p <= 100)%Q)
       [5; 5; 15; 25; 55; 55; 70; 75; 55; 70; 85; 100; 100]%Q.
Proof.
  assert (job_progress rejects_light (triage_gives [unit_of 0 "a"]) no_router 9
            new_job []
          = Some [5; 5; 15; 25; 55; 55; 70; 75; 55; 70; 85; 100; 100]%Q) as H
    by (vm_compute; reflexivity).
  split; [exact H|].
  exact (progress_stays_between_5_and_100 _ _ _ _ _ _ _ H).
Defined.

(** X13. Over a job whose run never enters the escalation node, the
    progress never decreases: from the runner's first write of 5 through
    the nodes' constants and the per-unit values of the map and gate loops
    to the final 100, also when the job fails on the way. *)
Theorem progress_rises_without_escalation
    reg triage_ext carbon_router_ext fuel st schedules log :
  Forall (fun c => at_node c <> n_map_escalate_chunks)
    (trace reg triage_ext carbon_router_ext fuel (initial_config st schedules)) ->
  job_progress reg triage_ext carbon_router_ext fuel st schedules = Some log ->
  nondecreasing log = true.
Proof.
  intros Htr. unfold job_progress.
  assert (climbing triage_ext st (initial_config st schedules)) as Hinit.
  { split; [apply run_invariant_initial|apply climbs_nil]. }
  pose proof (run_climbs reg triage_ext carbon_router_ext st fuel _ Hinit Htr) as H.
  assert (forall lo, (lo <= 100)%Q -> climbs lo 100 [100%Q]) as Hlast
    by (intros lo Hlo; apply climbs_cons; [lra|lra|apply climbs_nil]).
  destruct (run _ _ _ _ _) as [c|msg l|c]; intros [= <-].
  - apply (climbs_within 5 100). apply climbs_cons; [lra|lra|].
    eapply climbs_app; [| |exact H|apply Hlast];
      [apply level_ge_5|apply level_le_100..].
  - apply (climbs_within 5 100). apply climbs_cons; [lra|lra|].
    eapply climbs_app; [| |exact H|apply Hlast]; lra.
Qed.

(** Two units that the verifier accepts, completing in reverse order. *)
Lemma progress_rises_without_escalation_witness :
  exists log,
    job_progress always_accept (triage_gives two_units) no_router 7 new_job [[1]]
    = Some log
    /\ length log = 12
    /\ nondecreasing log = true.
Proof.
  destruct (job_progress always_accept (triage_gives two_units) no_router 7
              new_job [[1]]) as [log|] eqn:H; [|vm_compute in H; discriminate].
  exists log. split; [reflexivity|].
  split; [vm_compute in H; injection H as <-; reflexivity|].
  refine (progress_rises_without_escalation _ _ _ _ _ _ _ _ H).
  vm_compute. repeat (constructor; [discriminate|]). constructor.
Defined.

End ProgressFacts.

(** ** The triage agent and the upload path *)

Module TriageFacts.

Import Orchestrator Triage Upload.
Local Open Scope list_scope.

Lemma append_inj_r (p s t : string) : (p ++ s)%string = (p ++ t)%string -> s = t.
Proof. induction p as [|a p IH]; simpl; [done|]. intros [= H]. by apply IH. Qed.

Lemma convert_lookup doc k els i c :
  convert doc k els !! i = Some c ->
  chunk_index c = k + i
  /\ chunk_id c = (doc ++ "_chunk_" ++ pretty (k + i))%string
  /\ chunk_document_id c = doc
  /\ nonblank (content c) = true
  /\ chunk_kind c <> Other.
Proof.
  revert k i. induction els as [|el rest IH]; intros k i; simpl; [done|].
  destruct (element_chunk el) as [kind text] eqn:Hel.
  destruct (nonblank text) eqn:Hnb.
  - destruct i as [|i]; simpl.
    + intros [= <-]. simpl. rewrite Nat.add_0_r. repeat split; try done.
      destruct el; simpl in Hel; injection Hel as <- <-; try done.
    + intros H. apply IH in H. by replace (k + S i) with (S k + i) by lia.
  - apply IH.
Qed.

Lemma convert_selects doc k els :
  (fun c => (chunk_kind c, content c)) <$> convert doc k els
  = List.filter (fun p => nonblank p.2) (element_chunk <$> els).
Proof.
  revert k. induction els as [|el rest IH]; intros k; simpl; [done|].
  destruct (element_chunk el) as [kind text] eqn:Hel. simpl.
  destruct (nonblank text); csimpl; by rewrite IH.
Qed.

Lemma table_content_nonblank text html : nonblank (table_content text html) = true.
Proof. done. Qed.

Lemma split_on_fresh sep s : mentions sep s = false -> split_on sep s = [s].
Proof.
  induction s as [|a s IH]; simpl; [done|].
  destruct (Ascii.eqb a sep); simpl; [done|]. intros H. by rewrite IH.
Qed.

Lemma split_on_app sep s t :
  mentions sep s = false ->
  split_on sep (s ++ String sep t) = s :: split_on sep t.
Proof.
  induction s as [|a s IH]; simpl.
  - by rewrite Ascii.eqb_refl.
  - destruct (Ascii.eqb a sep); simpl; [done|]. intros H. by rewrite IH.
Qed.

Lemma split_first_app sep s t :
  mentions sep s = false ->
  split_first sep (s ++ String sep t) = Some (s, t).
Proof.
  induction s as [|a s IH]; simpl.
  - by rewrite Ascii.eqb_refl.
  - destruct (Ascii.eqb a sep); simpl; [done|]. intros H. by rewrite IH.
Qed.

Lemma mentions_app sep s t :
  mentions sep (s ++ t) = mentions sep s || mentions sep t.
Proof.
  induction s as [|a s IH]; simpl; [done|]. by rewrite IH, orb_assoc.
Qed.

(** The path of an upload whose job id has no slash. *)
Lemma upload_path_eq job_id filename :
  mentions "/" job_id = false ->
  upload_path job_id filename
  = ("temp_uploads" ++ String "/" (job_id ++ String "_" filename))%string.
Proof.
  intros H. unfold upload_path, os_path_join.
  destruct job_id as [|a j]; [done|]. simpl in *.
  apply orb_false_iff in H as [-> _]. done.
Qed.

Lemma basename_upload_path job_id filename :
  mentions "/" job_id = false ->
  mentions "/" filename = false ->
  os_path_basename (upload_path job_id filename)
  = (job_id ++ String "_" filename)%string.
Proof.
  intros Hj Hf. rewrite upload_path_eq by done. unfold os_path_basename.
  rewrite split_on_app by done. rewrite split_on_fresh; [done|].
  rewrite mentions_app, Hj. simpl. by rewrite Hf.
Qed.

(** X14. The chunks that triage returns are numbered 0, 1, 2, ... in
    the order returned, whatever the parser and the strategy: the chunk at
    position [i] has index [i] and the id [<document id>_chunk_<i>], so no
    two chunks share an id; every chunk carries the document id read off
    the file name, has content that is not blank, and is never of type
    Other. *)
Theorem triage_chunks_are_numbered partition file_path file_type strategy :
  let chunks := triage_document partition file_path file_type strategy in
  (forall i c,
      chunks !! i = Some c ->
      chunk_index c = i
      /\ chunk_id c = (document_id_of file_path ++ "_chunk_" ++ pretty i)%string
      /\ chunk_document_id c = document_id_of file_path
      /\ nonblank (content c) = true
      /\ chunk_kind c <> Other)
  /\ NoDup (chunk_id <$> chunks).
Proof.
  intros chunks.
  assert (exists els, chunks = convert (document_id_of file_path) 0 els)
    as [els Hels].
  { unfold chunks, triage_document.
    destruct (partition file_path file_type strategy) as [els|e]; [by exists els|].
    destruct (String.eqb strategy "hi_res"); [|by exists []].
    destruct (partition file_path file_type "fast") as [els|e'];
      [by exists els|by exists []]. }
  assert (forall i c,
      chunks !! i = Some c ->
      chunk_index c = i
      /\ chunk_id c = (document_id_of file_path ++ "_chunk_" ++ pretty i)%string
      /\ chunk_document_id c = document_id_of file_path
      /\ nonblank (content c) = true
      /\ chunk_kind c <> Other) as Hall.
  { intros i c Hc. rewrite Hels in Hc. by apply convert_lookup in Hc. }
  split; [exact Hall|].
  apply NoDup_alt. intros i j x Hi Hj.
  apply list_lookup_fmap_Some in Hi as (ci & -> & Hci).
  apply list_lookup_fmap_Some in Hj as (cj & Heq & Hcj).
  destruct (Hall _ _ Hci) as (_ & Hidi & _).
  destruct (Hall _ _ Hcj) as (_ & Hidj & _).
  rewrite Hidi, Hidj in Heq.
  apply append_inj_r in Heq. apply (append_inj_r "_chunk_") in Heq.
  by apply (inj pretty) in Heq.
Qed.

(** X15. Triage keeps exactly the elements whose content is not blank,
    in document order: a title, a text or a list item is dropped when its
    text is empty or white space, an element of another class is always
    dropped, and a table is always kept, wrapped between its markers, even
    when its text is empty. When the parser raises under a strategy other
    than "hi_res" (such as the configured "fast"), triage returns no chunk
    at all. *)
Theorem triage_keeps_nonblank_elements partition file_path file_type strategy :
  match partition file_path file_type strategy with
  | Returned elements =>
      let chunks := triage_document partition file_path file_type strategy in
      (fun c => (chunk_kind c, content c)) <$> chunks
      = List.filter (fun p => nonblank p.2) (element_chunk <$> elements)
      /\ length chunks <= length elements
      /\ (forall text html,
            el_Table text html ∈ elements ->
            exists c, c ∈ chunks /\ chunk_kind c = Table
                      /\ content c = table_content text html)
      /\ length (List.filter (fun c => match chunk_kind c with
                                       | Table => true | _ => false end) chunks)
         = length (List.filter (fun el => match el with
                                          | el_Table _ _ => true | _ => false end)
                     elements)
  | Raised _ =>
      String.eqb strategy "hi_res" = false ->
      triage_document partition file_path file_type strategy = []
  end.
Proof.
  unfold triage_document.
  destruct (partition file_path file_type strategy) as [els|e];
    [|by intros ->].
  cbn zeta.
  pose proof (convert_selects (document_id_of file_path) 0 els) as Hsel.
  split; [exact Hsel|]. split; [|split].
  - rewrite <- (length_fmap (fun c => (chunk_kind c, content c))), Hsel.
    rewrite <- (length_fmap element_chunk els). apply List.filter_length_le.
  - intros text html Hin.
    assert ((Table, table_content text html)
            ∈ (fun c => (chunk_kind c, content c))
                <$> convert (document_id_of file_path) 0 els) as Hp.
    { rewrite Hsel. apply list_elem_of_In, List.filter_In. split; [|done].
      apply list_elem_of_In.
      apply (list_elem_of_fmap_2 element_chunk _ _ Hin). }
    apply list_elem_of_fmap in Hp as (c & [= Hk Hc] & Hcin). by exists c.
  - generalize 0. generalize (document_id_of file_path). intros doc.
    clear Hsel. induction els as [|el rest IH]; intros k; simpl; [done|].
    destruct el as [t|t|t|t h|t]; simpl;
      try (destruct (nonblank t); simpl; by rewrite ?IH).
Qed.

(** The configured strategy and a scanned page: a heading, white space, a
    table without text, a page number of a class that triage does not
    know. *)
Lemma triage_keeps_nonblank_elements_witness :
  let partition := fun _ _ strategy : string =>
    if String.eqb strategy "fast"
    then Returned [el_Title "Report"; el_NarrativeText "  ";
                   el_Table "" None; el_other "7"]
    else Raised "no model" in
  (fun c => (chunk_index c, chunk_kind c)) <$>
    triage_document partition "temp_uploads/ab-1_r.pdf" "application/pdf" "fast"
  = [(0, Title); (1, Table)]
  /\ triage_document partition "temp_uploads/ab-1_r.pdf" "application/pdf" "ocr_only"
     = [].
Proof.
  intros partition. split; [vm_compute; reflexivity|].
  exact (triage_keeps_nonblank_elements partition "temp_uploads/ab-1_r.pdf"
           "application/pdf" "ocr_only" eq_refl).
Defined.

(** X16. The upload path keeps the job id and the file name apart: for a
    job id without slash and underscore (such as a UUID) and a file name
    without slash, triage reads the job id back from the path as the
    document id of every chunk, and the job result reports the file name
    as uploaded, underscores included. *)
Theorem upload_path_round_trip partition job_id filename file_type strategy :
  mentions "/" job_id = false ->
  mentions "_" job_id = false ->
  mentions "/" filename = false ->
  document_id_of (upload_path job_id filename) = job_id
  /\ result_filename (upload_path job_id filename) = filename
  /\ Forall (fun c => chunk_document_id c = job_id)
       (triage_document partition (upload_path job_id filename) file_type strategy).
Proof.
  intros Hslash Hunder Hname.
  pose proof (basename_upload_path job_id filename Hslash Hname) as Hbase.
  assert (document_id_of (upload_path job_id filename) = job_id) as Hdoc.
  { unfold document_id_of. fold (os_path_basename (upload_path job_id filename)).
    rewrite Hbase. by rewrite split_on_app. }
  split; [exact Hdoc|]. split.
  - unfold result_filename, split_once. rewrite Hbase.
    by rewrite split_first_app.
  - apply Forall_lookup. intros i c Hc.
    assert (exists els, triage_document partition (upload_path job_id filename)
                          file_type strategy
                        = convert (document_id_of (upload_path job_id filename)) 0 els)
      as [els Hels].
    { unfold triage_document.
      destruct (partition _ file_type strategy) as [els|e]; [by exists els|].
      destruct (String.eqb strategy "hi_res"); [|by exists []].
      destruct (partition _ file_type "fast") as [els|e'];
        [by exists els|by exists []]. }
    rewrite Hels in Hc. apply convert_lookup in Hc as (_ & _ & Hd & _).
    by rewrite Hd.
Qed.

Lemma upload_path_round_trip_witness :
  upload_path "9f1c-4e2a" "annual_report_2024.pdf"
  = "temp_uploads/9f1c-4e2a_annual_report_2024.pdf"
  /\ document_id_of "temp_uploads/9f1c-4e2a_annual_report_2024.pdf" = "9f1c-4e2a"
  /\ result_filename "temp_uploads/9f1c-4e2a_annual_report_2024.pdf"
     = "annual_report_2024.pdf".
Proof.
  destruct (upload_path_round_trip (fun _ _ _ => Returned [])
              "9f1c-4e2a" "annual_report_2024.pdf" "application/pdf" "fast"
              eq_refl eq_refl eq_refl) as (Hdoc & Hname & _).
  split; [reflexivity|]. split; [exact Hdoc|exact Hname].
Defined.

End TriageFacts.
